(** * Slack thread summarizer: the backend switch, the transcript builder,
      the participant extractor and the Notion block serializer

    A shallow embedding of [src/llm_service.py] and of the pipeline functions
    of [src/slack_bot_summarizer.py], with the statements of the
    specification proved (or refuted) against them. *)

From Stdlib Require Import String Ascii.
From stdpp Require Import base numbers option list gmap.

Set Default Proof Using "Type".
Local Open Scope N_scope.

(** ** Python strings

    A Python [str] is a sequence of Unicode code points; we keep it as a list
    of their numbers, so that the non-ASCII text of the summaries (headings
    such as U+4E3B U+984C) is just data. *)

Module PyStr.

Abbreviation pystr := (list N).

(** A literal of the source as a [str]: the UTF-8 bytes of the Rocq
    string are decoded into code points.  [need] is the number of
    continuation bytes still expected and [acc] the bits read so far. *)
Fixpoint utf8 (s : string) (need : nat) (acc : N) : pystr :=
  match s with
  | EmptyString => []
  | String c s' =>
      let b := N_of_ascii c in
      match need with
      | O =>
          if b <? 128 then b :: utf8 s' 0 0
          else if b <? 224 then utf8 s' 1 (b - 192)
          else if b <? 240 then utf8 s' 2 (b - 224)
          else utf8 s' 3 (b - 240)
      | S O => (acc * 64 + (b - 128)) :: utf8 s' 0 0
      | S k => utf8 s' k (acc * 64 + (b - 128))
      end
  end.

Definition py (s : string) : pystr := utf8 s 0 0.

(** [s == t] *)
Definition eqb (s t : pystr) : bool := bool_decide (s = t).

(** Truthiness of an optional string: [None] and the empty string are
    falsy, as in [if not value:]. *)
Definition truthy (o : option pystr) : bool :=
  match o with
  | Some (_ :: _) => true
  | _ => false
  end.

(** [s.startswith(p)] *)
Fixpoint startswith (p s : pystr) : bool :=
  match p, s with
  | [], _ => true
  | _ :: _, [] => false
  | a :: p', b :: s' => bool_decide (a = b) && startswith p' s'
  end.

(** [str.isspace] on one code point: the white space table of CPython. *)
Definition isspace (c : N) : bool :=
  (9 <=? c) && (c <=? 13) || (28 <=? c) && (c <=? 32)
  || (c =? 133) || (c =? 160) || (c =? 5760)
  || (8192 <=? c) && (c <=? 8202)
  || (c =? 8232) || (c =? 8233) || (c =? 8239) || (c =? 8287)
  || (c =? 12288).

Fixpoint lstrip_by (p : N → bool) (s : pystr) : pystr :=
  match s with
  | [] => []
  | c :: s' => if p c then lstrip_by p s' else s
  end.

Definition rstrip_by (p : N → bool) (s : pystr) : pystr :=
  rev (lstrip_by p (rev s)).

Definition strip_by (p : N → bool) (s : pystr) : pystr :=
  rstrip_by p (lstrip_by p s).

(** [s.strip()] *)
Definition strip (s : pystr) : pystr := strip_by isspace s.

(** [s.strip(chars)] *)
Definition strip_chars (chars s : pystr) : pystr :=
  strip_by (λ c, bool_decide (c ∈ chars)) s.

(** [s.split(sep)] for a one-character separator: always at least one
    piece, the empty string splits into one empty piece. *)
Fixpoint split (sep : N) (s : pystr) : list pystr :=
  match s with
  | [] => [[]]
  | c :: s' =>
      if bool_decide (c = sep) then [] :: split sep s'
      else match split sep s' with
           | [] => [[c]]
           | piece :: pieces => (c :: piece) :: pieces
           end
  end.

(** [sep.join(pieces)] *)
Fixpoint join (sep : pystr) (pieces : list pystr) : pystr :=
  match pieces with
  | [] => []
  | [piece] => piece
  | piece :: rest => piece ++ sep ++ join sep rest
  end.

(** ASCII lower-casing, the restriction of [str.lower] to ASCII text. *)
Definition ascii_lower (s : pystr) : pystr :=
  (λ c, if (65 <=? c) && (c <=? 90) then c + 32 else c) <$> s.

End PyStr.
Import PyStr.

(** ** Outcomes of calls that may raise *)

Inductive outcome (E A : Type) : Type :=
| Returns (a : A)
| Raises (e : E).
Arguments Returns {E A} a.
Arguments Raises {E A} e.

(** ** [llm_service.py]: the backend switch *)

Module LLM.

(** The three [ValueError]s of the module, by where they are raised. *)
Inductive ValueError : Type :=
| MissingAnthropicKey
| IncompleteAzureConfig
| UnsupportedProvider.

(** Client objects, by the arguments they are constructed from. *)
Record Anthropic := { api_key : pystr }.
Record AzureOpenAI :=
  { az_api_key : pystr; az_api_version : pystr; azure_endpoint : pystr }.

(** What the calls of the module raise: one of its own [ValueError]s, or
    the exception of a client constructor, which is not caught. *)
Inductive Raised : Type :=
| value_error (e : ValueError)
| constructor_error (detail : pystr).

(** The two client constructors, [anthropic.Anthropic(api_key=...)] and
    [AzureOpenAI(api_key=..., api_version=..., azure_endpoint=...)]: each
    answers the client or raises (for an endpoint that is not a URL, for
    one). *)
Record Sdk := {
  new_Anthropic : pystr → outcome pystr Anthropic;
  new_AzureOpenAI : pystr → pystr → pystr → outcome pystr AzureOpenAI
}.

(** The variables [__init__] reads from [os.environ]. *)
Record Environ := {
  ANTHROPIC_API_KEY : option pystr;
  AZURE_OPENAI_API_KEY : option pystr;
  AZURE_OPENAI_ENDPOINT : option pystr;
  AZURE_OPENAI_DEPLOYMENT : option pystr;
  AZURE_OPENAI_API_VERSION : option pystr
}.

(** The fields of an [LLMService].  [client_inits] is not a field of the
    class: it counts the client objects constructed so far, so that a
    freshly built client can be told from the one that was there. *)
Record LLMService := {
  provider : pystr;
  anthropic_api_key : option pystr;
  azure_openai_api_key : option pystr;
  azure_openai_endpoint : option pystr;
  azure_openai_deployment : pystr;
  azure_openai_api_version : pystr;
  claude_client : option Anthropic;
  azure_openai_client : option AzureOpenAI;
  client_inits : nat
}.

Definition set_provider (p : pystr) (s : LLMService) : LLMService :=
  {| provider := p;
     anthropic_api_key := anthropic_api_key s;
     azure_openai_api_key := azure_openai_api_key s;
     azure_openai_endpoint := azure_openai_endpoint s;
     azure_openai_deployment := azure_openai_deployment s;
     azure_openai_api_version := azure_openai_api_version s;
     claude_client := claude_client s;
     azure_openai_client := azure_openai_client s;
     client_inits := client_inits s |}.

Definition set_claude_client (c : Anthropic) (s : LLMService) : LLMService :=
  {| provider := provider s;
     anthropic_api_key := anthropic_api_key s;
     azure_openai_api_key := azure_openai_api_key s;
     azure_openai_endpoint := azure_openai_endpoint s;
     azure_openai_deployment := azure_openai_deployment s;
     azure_openai_api_version := azure_openai_api_version s;
     claude_client := Some c;
     azure_openai_client := azure_openai_client s;
     client_inits := S (client_inits s) |}.

Definition set_azure_openai_client (c : AzureOpenAI) (s : LLMService)
  : LLMService :=
  {| provider := provider s;
     anthropic_api_key := anthropic_api_key s;
     azure_openai_api_key := azure_openai_api_key s;
     azure_openai_endpoint := azure_openai_endpoint s;
     azure_openai_deployment := azure_openai_deployment s;
     azure_openai_api_version := azure_openai_api_version s;
     claude_client := claude_client s;
     azure_openai_client := Some c;
     client_inits := S (client_inits s) |}.

Definition claude : pystr := Eval vm_compute in py "claude".
Definition azure_openai : pystr := Eval vm_compute in py "azure_openai".

(** [_initialize_client]: the service after the call and how the call
    ended.  A raise, of the method or of a constructor, happens before
    any assignment. *)
Definition _initialize_client (sdk : Sdk) (s : LLMService)
  : LLMService * outcome Raised unit :=
  if eqb (provider s) claude then
    match anthropic_api_key s with
    | Some (c :: k) =>
        match new_Anthropic sdk (c :: k) with
        | Returns client => (set_claude_client client s, Returns ())
        | Raises detail => (s, Raises (constructor_error detail))
        end
    | _ => (s, Raises (value_error MissingAnthropicKey))
    end
  else if eqb (provider s) azure_openai then
    match azure_openai_api_key s, azure_openai_endpoint s with
    | Some (c :: k), Some (d :: e) =>
        match new_AzureOpenAI sdk (c :: k) (azure_openai_api_version s)
                (d :: e) with
        | Returns client => (set_azure_openai_client client s, Returns ())
        | Raises detail => (s, Raises (constructor_error detail))
        end
    | _, _ => (s, Raises (value_error IncompleteAzureConfig))
    end
  else (s, Raises (value_error UnsupportedProvider)).

(** Which client [generate_summary] and [extract_keywords] call: the
    Claude one when the provider is ["claude"], the Azure one otherwise.
    The client is usable when it is not [None]. *)
Definition active_client_usable (s : LLMService) : bool :=
  if eqb (provider s) claude then bool_decide (is_Some (claude_client s))
  else bool_decide (is_Some (azure_openai_client s)).

Section WithLower.

(** [str.lower], the full Unicode lower-casing of the interpreter, and
    the constructors of the installed SDKs. *)
Variable lower : pystr → pystr.
Variable sdk : Sdk.

(** [LLMService.__init__]: the object exists only if the call
    returns. *)
Definition __init__ (environ : Environ) (provider0 : pystr)
  : outcome Raised LLMService :=
  let self :=
    {| provider := lower provider0;
       anthropic_api_key := ANTHROPIC_API_KEY environ;
       azure_openai_api_key := AZURE_OPENAI_API_KEY environ;
       azure_openai_endpoint := AZURE_OPENAI_ENDPOINT environ;
       azure_openai_deployment :=
         default (py "gpt-4") (AZURE_OPENAI_DEPLOYMENT environ);
       azure_openai_api_version :=
         default (py "2023-12-01-preview")
                 (AZURE_OPENAI_API_VERSION environ);
       claude_client := None;
       azure_openai_client := None;
       client_inits := 0%nat |} in
  match _initialize_client sdk self with
  | (self', Returns _) => Returns self'
  | (_, Raises e) => Raises e
  end.

(** [switch_provider]. *)
Definition switch_provider (self : LLMService) (provider0 : pystr)
  : LLMService * outcome Raised pystr :=
  if negb (eqb (lower provider0) claude
           || eqb (lower provider0) azure_openai) then
    (self, Raises (value_error UnsupportedProvider))
  else if negb (eqb (lower provider0) (provider self)) then
    let self1 := set_provider (lower provider0) self in
    match _initialize_client sdk self1 with
    | (self2, Returns _) => (self2, Returns (provider self2))
    | (self2, Raises e) => (self2, Raises e)
    end
  else (self, Returns (provider self)).

(** The services a program can hold: built by [__init__], then changed
    by [switch_provider] only, whether a call returns or raises. *)
Inductive reachable : LLMService → Prop :=
| reachable_init environ p s :
    __init__ environ p = Returns s → reachable s
| reachable_switch s p :
    reachable s → reachable (switch_provider s p).1.

End WithLower.

End LLM.

(** ** [slack_bot_summarizer.py]: transcript and participants *)

Module Slack.

(** A message of [conversations_replies]: a dict read with [get]. *)
Record RawMessage := {
  user : option pystr;
  bot_id : option pystr;
  text : option pystr;
  ts : option pystr
}.

(** The ["user"] object of a [users_info] answer. *)
Record Profile := { profile_email : option pystr }.
Record UserInfo := { real_name : option pystr; profile : option Profile }.

(** A record of [extract_participants_with_email]. *)
Record Participant := { user_id : pystr; name : pystr; email : pystr }.

(** *** The mention pattern [<@([A-Z0-9]+)>] *)

Definition is_id_char (c : N) : bool :=
  (65 <=? c) && (c <=? 90) || (48 <=? c) && (c <=? 57).

(** [f"<@{user_id}>"] *)
Definition mention (user_id : pystr) : pystr := 60 :: 64 :: user_id ++ [62].

(** The longest run of [[A-Z0-9]] at the start of [s], and what follows. *)
Fixpoint span_id (s : pystr) : pystr * pystr :=
  match s with
  | [] => ([], [])
  | c :: s' =>
      if is_id_char c then let (u, r) := span_id s' in (c :: u, r)
      else ([], s)
  end.

(** A match of the pattern at the very start of [s]: its group.  The run of
    [[A-Z0-9]+] is greedy and the character after it must be [>]; a shorter
    run would be followed by an id character, so there is nothing to
    backtrack to. *)
Definition match_mention (s : pystr) : option pystr :=
  match s with
  | a :: b :: s' =>
      if bool_decide (a = 60) && bool_decide (b = 64) then
        match span_id s' with
        | (c :: u, d :: _) =>
            if bool_decide (d = 62) then Some (c :: u) else None
        | _ => None
        end
      else None
  | _ => None
  end.

(** [re.findall(mention_pattern, text)]: the groups of the matches found
    scanning left to right, without overlap.  [skip] is the number of
    characters of the current match still to pass over. *)
Fixpoint findall_from (skip : nat) (s : pystr) : list pystr :=
  match s with
  | [] => []
  | _ :: s' =>
      match skip with
      | S k => findall_from k s'
      | O =>
          match match_mention s with
          | Some u => u :: findall_from (length u + 2) s'
          | None => findall_from 0 s'
          end
      end
  end.

Definition findall_mentions (s : pystr) : list pystr := findall_from 0 s.

(** [re.sub(r'<@[A-Z0-9]+>', '', text)]: the same scan, the matches left
    out. *)
Fixpoint sub_from (skip : nat) (s : pystr) : pystr :=
  match s with
  | [] => []
  | c :: s' =>
      match skip with
      | S k => sub_from k s'
      | O =>
          match match_mention s with
          | Some u => sub_from (length u + 2) s'
          | None => c :: sub_from 0 s'
          end
      end
  end.

Definition sub_mentions (s : pystr) : pystr := sub_from 0 s.

(** [text.replace(old, new)] for a non-empty [old] (every [old] below is a
    token [<@...>]): occurrences found left to right, without overlap. *)
Fixpoint replace_from (old new : pystr) (skip : nat) (s : pystr) : pystr :=
  match s with
  | [] => []
  | c :: s' =>
      match skip with
      | S k => replace_from old new k s'
      | O =>
          if startswith old s
          then new ++ replace_from old new (length old - 1) s'
          else c :: replace_from old new 0 s'
      end
  end.

Definition replace (old new s : pystr) : pystr := replace_from old new 0 s.

(** [needle in s] *)
Fixpoint contains (needle s : pystr) : bool :=
  startswith needle s ||
  match s with
  | [] => false
  | _ :: s' => contains needle s'
  end.

(** *** Calls to the Slack client

    A computation that calls [client.users_info] carries the list of the
    ids it was called with, oldest first. *)

Definition Calls (A : Type) : Type := list pystr → A * list pystr.

Definition ret {A} (a : A) : Calls A := λ log, (a, log).

Definition bind {A B} (m : Calls A) (k : A → Calls B) : Calls B :=
  λ log, let (a, log') := m log in k a log'.

Notation "'let!' x ':=' m 'in' k" := (bind m (λ x, k))
  (at level 10, x pattern, m at level 100, k at level 200).

(** The result of a computation started with no call made, and the calls
    it made. *)
Definition result {A} (m : Calls A) : A := (m []).1.
Definition calls {A} (m : Calls A) : list pystr := (m []).2.

(** [f"User {user_id}"] *)
Definition fallback_name (uid : pystr) : pystr :=
  Eval vm_compute in py "User " ++ uid.

Section WithClient.

(** What [client.users_info(user=id)["user"]] answers for each id during
    the request; [None] when the call (or the subscript) raises. *)
Variable slack_users : pystr → option UserInfo.

Definition users_info (uid : pystr) : Calls (option UserInfo) :=
  λ log, (slack_users uid, log ++ [uid]).

(** The loop of [process_mentions] over the ids found by [findall]. *)
Fixpoint process_mentions_loop (mentions : list pystr) (text0 : pystr)
  : Calls pystr :=
  match mentions with
  | [] => ret text0
  | uid :: mentions' =>
      let! r := users_info uid in
      match r with
      | Some {| real_name := Some user_name |} =>
          process_mentions_loop mentions'
            (replace (mention uid) (64 :: user_name) text0)
      | _ => process_mentions_loop mentions' text0
      end
  end.

Definition process_mentions (text0 : pystr) : Calls pystr :=
  process_mentions_loop (findall_mentions text0) text0.

(** The text of a transcript line: mentions processed, remaining tokens
    deleted, white space trimmed. *)
Definition line_text (msg : RawMessage) : Calls pystr :=
  let! t := process_mentions (default [] (text msg)) in
  ret (strip (sub_mentions t)).

(** The author lookup of [format_messages_for_llm], through [user_cache]. *)
Definition cached_user_info (fallback : UserInfo)
    (user_cache : gmap pystr UserInfo) (uid : pystr)
  : Calls (UserInfo * gmap pystr UserInfo) :=
  match user_cache !! uid with
  | Some user_info => ret (user_info, user_cache)
  | None =>
      let! r := users_info uid in
      match r with
      | Some user_info => ret (user_info, <[uid := user_info]> user_cache)
      | None => ret (fallback, user_cache)
      end
  end.

(** One turn of the loop of [format_messages_for_llm]; the state is
    [(formatted_messages, user_cache)]. *)
Definition format_message (st : list pystr * gmap pystr UserInfo)
    (msg : RawMessage) : Calls (list pystr * gmap pystr UserInfo) :=
  let '(formatted_messages, user_cache) := st in
  if negb (truthy (user msg)) || truthy (bot_id msg) then ret st
  else
    let uid := default [] (user msg) in
    let! (user_info, user_cache) :=
      cached_user_info
        {| real_name := Some (fallback_name uid); profile := None |}
        user_cache uid in
    let username := default (fallback_name uid) (real_name user_info) in
    let! t := line_text msg in
    match t with
    | [] => ret (formatted_messages, user_cache)
    | _ :: _ =>
        ret (formatted_messages ++ [username ++ py ": " ++ t], user_cache)
    end.

Fixpoint format_messages_loop (st : list pystr * gmap pystr UserInfo)
    (messages : list RawMessage)
  : Calls (list pystr * gmap pystr UserInfo) :=
  match messages with
  | [] => ret st
  | msg :: messages' =>
      let! st' := format_message st msg in
      format_messages_loop st' messages'
  end.

(** The list [formatted_messages] at the end of the loop. *)
Definition formatted_messages (messages : list RawMessage)
  : Calls (list pystr) :=
  let! st := format_messages_loop ([], ∅) messages in ret st.1.

Definition format_messages_for_llm (messages : list RawMessage)
  : Calls pystr :=
  let! lines := formatted_messages messages in
  ret (join [10; 10] lines).

(** The state of the loop of [extract_participants_with_email]. *)
Record Extraction := {
  participants : list Participant;
  user_cache : gmap pystr UserInfo;
  processed_users : gset pystr
}.

Definition extract_message (st : Extraction) (msg : RawMessage)
  : Calls Extraction :=
  if negb (truthy (user msg)) || truthy (bot_id msg) then ret st
  else
    let uid := default [] (user msg) in
    if bool_decide (uid ∈ processed_users st) then ret st
    else
      let processed := {[ uid ]} ∪ processed_users st in
      let! (user_info, cache) :=
        cached_user_info
          {| real_name := Some (fallback_name uid);
             profile := Some {| profile_email := None |} |}
          (user_cache st) uid in
      let username := default (fallback_name uid) (real_name user_info) in
      let email :=
        default [] (profile_email
                      (default {| profile_email := None |}
                               (profile user_info))) in
      ret {| participants :=
               participants st
               ++ [{| user_id := uid; name := username; email := email |}];
             user_cache := cache;
             processed_users := processed |}.

Fixpoint extract_loop (st : Extraction) (messages : list RawMessage)
  : Calls Extraction :=
  match messages with
  | [] => ret st
  | msg :: messages' =>
      let! st' := extract_message st msg in
      extract_loop st' messages'
  end.

Definition extract_participants_with_email (messages : list RawMessage)
  : Calls (list Participant) :=
  let! st :=
    extract_loop
      {| participants := []; user_cache := ∅; processed_users := ∅ |}
      messages in
  ret (participants st).

End WithClient.

End Slack.

(** ** [slack_bot_summarizer.py]: the Notion block serializer *)

Module Notion.

(** A block dict, by its ["type"] and the ["content"] of its one rich-text
    item. *)
Inductive Block : Type :=
| heading_2 (content : pystr)
| bulleted_list_item (content : pystr)
| paragraph (content : pystr).

(** The local variables of [convert_summary_to_notion_blocks]. *)
Record Serializer := {
  blocks : list Block;
  current_heading : option pystr;
  bullet_points : list pystr
}.

(** The flush of the accumulated bullets, under [if bullet_points:]: the
    first one, then the others. *)
Definition flush (bullet_points : list pystr) : list Block :=
  match bullet_points with
  | [] => []
  | first :: others =>
      bulleted_list_item first :: (bulleted_list_item <$> others)
  end.

Definition heading_marker : pystr := Eval vm_compute in py "##".
Definition bullet_marker : pystr := Eval vm_compute in py "- ".
Definition dash : pystr := Eval vm_compute in py "-".

(** The text accumulated for a bullet line: the marker stripped. *)
Definition bullet_text (line : pystr) : pystr := strip (drop 2 (strip line)).

(** One turn of the loop over the lines. *)
Definition convert_line (st : Serializer) (line : pystr) : Serializer :=
  if startswith heading_marker line then
    let heading_text := strip (strip_chars [35; 32] line) in
    {| blocks := blocks st ++ flush (bullet_points st)
                 ++ [heading_2 heading_text];
       current_heading := Some heading_text;
       bullet_points := [] |}
  else if startswith bullet_marker (strip line) then
    {| blocks := blocks st;
       current_heading := current_heading st;
       bullet_points := bullet_points st ++ [bullet_text line] |}
  else if eqb (strip line) [] then
    {| blocks := blocks st ++ flush (bullet_points st) ++ [paragraph []];
       current_heading := current_heading st;
       bullet_points := [] |}
  else if negb (startswith dash (strip line))
          && bool_decide (bullet_points st = []) then
    {| blocks := blocks st ++ [paragraph (strip line)];
       current_heading := current_heading st;
       bullet_points := bullet_points st |}
  else st.

Definition start : Serializer :=
  {| blocks := []; current_heading := None; bullet_points := [] |}.

(** The state after the lines [lines], from [st]. *)
Definition convert_lines (st : Serializer) (lines : list pystr) : Serializer :=
  foldl convert_line st lines.

(** What is returned at the end of the input. *)
Definition finish (st : Serializer) : list Block :=
  blocks st ++ flush (bullet_points st).

Definition convert_summary_to_notion_blocks (summary : pystr) : list Block :=
  finish (convert_lines start (split 10 summary)).

End Notion.

(** ** [slack_bot_summarizer.py]: the mention handler *)

Module Pipeline.
Import LLM Slack Notion.

(** What the handler reads of [body["event"]]. *)
Record Event := {
  event_channel : pystr;
  event_thread_ts : option pystr;
  event_ts : pystr;
  event_user : pystr;
  event_text : pystr
}.

Inductive Exception : Type :=
| ConfigurationError (e : Raised)
| CallError (detail : pystr).

(** [NOTION_API_KEY] and [NOTION_DATABASE_ID]. *)
Record NotionConfig := {
  NOTION_API_KEY : option pystr;
  NOTION_DATABASE_ID : option pystr
}.

(** The JSON of a created page, read only for its ["url"]. *)
Record NotionResponse := { url : option pystr }.

(** How [requests.post] ends: a response with its status code and its
    body ([None] when [response.json()] raises), or an exception of the
    transport. *)
Inductive PostResult : Type :=
| Response (status_code : N) (json : option NotionResponse)
| TransportError.

(** The body of the page request.  The property map is carried as
    [Props]: how it is assembled (title, dates, participants) plays no part
    in the statements below. *)
Record Page (Props : Type) := {
  database_id : option pystr;
  properties : Props;
  children : list Block
}.
Arguments database_id {Props} _.
Arguments properties {Props} _.
Arguments children {Props} _.

(** The collaborators during one event: what each call answers.  [say]
    answers the [ts] of the message it posted, or raises. *)
Record World (Props : Type) := {
  say : pystr → option pystr → outcome Exception pystr;
  conversations_replies : outcome Exception (list RawMessage);
  conversations_info : outcome Exception (option pystr);
  slack_users : pystr → option UserInfo;
  generate_summary : LLMService → pystr → outcome Exception pystr;
  extract_keywords : LLMService → pystr → outcome Exception pystr;
  build_properties :
    pystr → pystr → pystr → pystr → pystr → list Participant →
    outcome Exception Props;
  requests_post : Page Props → PostResult;
  chat_update : pystr → outcome Exception unit;
  str : Exception → pystr
}.
Arguments say {Props} _ _ _.
Arguments conversations_replies {Props} _.
Arguments conversations_info {Props} _.
Arguments slack_users {Props} _.
Arguments generate_summary {Props} _ _ _.
Arguments extract_keywords {Props} _ _ _.
Arguments build_properties {Props} _ _ _ _ _ _ _.
Arguments requests_post {Props} _ _.
Arguments chat_update {Props} _ _.
Arguments str {Props} _ _.

(** The calls that send something to Slack. *)
Inductive SlackCall : Type :=
| Say (text : pystr) (thread_ts : option pystr)
| ChatUpdate (channel ts text : pystr).

(** How the handler leaves things: the service, the calls it made to
    Slack in order (the last one may be the call that raised), and the
    exception that escaped it, if one did. *)
Record Handled := {
  service : LLMService;
  sent : list SlackCall;
  escaped : option Exception
}.

Definition header_block (thread_url : pystr) : Block :=
  paragraph (py "元のスレッド: " ++ thread_url).

(** [f"\n\n*<{notion_url}|📝 Notionにも保存しました>*"] *)
Definition saved_suffix (notion_url : pystr) : pystr :=
  [10; 10; 42; 60] ++ notion_url
  ++ (py "|📝 Notionにも保存しました>*").

(** [f"\n\n_Generated by: {llm_service.provider}_"] *)
Definition generated_by (llm : LLMService) : pystr :=
  [10; 10] ++ (py "_Generated by: ") ++ provider llm ++ [95].

Definition initial_message (save_to_notion : bool) : pystr :=
  (py "スレッドを要約しています...")
  ++ (if save_to_notion
      then 10 :: (py "Notionにも保存します。") else []).

Definition error_message (detail : pystr) : pystr :=
  (py "スレッドの要約中にエラーが発生しました: ") ++ detail.

Definition help_message (llm : LLMService) : pystr :=
  (py "スレッド内で @呼び出してください。スレッドの内容を要約します。")
  ++ 10 :: (py "利用可能なオプション:")
  ++ 10 :: (py "- `@summary_bot notion` - 要約をNotionにも保存")
  ++ 10 :: (py "- `@summary_bot use_claude` - Claudeを使用")
  ++ 10 :: (py "- `@summary_bot use_azure` - Azure OpenAIを使用")
  ++ 10 :: 10 :: (py "現在のLLMプロバイダ: *")
  ++ provider llm ++ [42].

Section Handler.

Context {Props : Type}.
Variable lower : pystr → pystr.
Variable sdk : Sdk.
Variable config : NotionConfig.
Variable world : World Props.

(** [get_channel_info], read for its ["name"] only. *)
Definition get_channel_info (channel_id : pystr) : option pystr :=
  if startswith [67] channel_id then
    match conversations_info world with
    | Returns channel => channel
    | Raises _ => Some (py "channel-" ++ channel_id)
    end
  else if startswith [68] channel_id then
    Some (py "direct-message")
  else if startswith [71] channel_id then
    Some (py "group-message")
  else Some (py "unknown-channel-" ++ channel_id).

(** [save_summary_to_notion]: [None] is returned without a request when the
    configuration is missing, and after a request that does not answer 200
    or that raises; building the properties may raise to the caller. *)
Definition save_summary_to_notion
    (summary channel_name thread_url thread_ts keywords : pystr)
    (participants : list Participant)
  : outcome Exception (option NotionResponse) :=
  if negb (truthy (NOTION_API_KEY config))
     || negb (truthy (NOTION_DATABASE_ID config)) then Returns None
  else
    match build_properties world summary channel_name thread_url thread_ts
            keywords participants with
    | Raises e => Raises e
    | Returns props =>
        let data :=
          {| database_id := NOTION_DATABASE_ID config;
             properties := props;
             children :=
               [header_block thread_url; paragraph []]
               ++ convert_summary_to_notion_blocks summary |} in
        match requests_post world data with
        | Response status_code json =>
            if status_code =? 200 then Returns json else Returns None
        | TransportError => Returns None
        end
    end.

(** Lines 122 to 147: the page url, when the summary was saved. *)
Definition notion_url (save_to_notion : bool) (llm : LLMService)
    (summary channel_name thread_url thread_ts : pystr)
    (participants : list Participant) : option pystr :=
  if save_to_notion && truthy (NOTION_API_KEY config)
     && truthy (NOTION_DATABASE_ID config) then
    match extract_keywords world llm summary with
    | Raises _ => None
    | Returns keywords =>
        match save_summary_to_notion summary channel_name thread_url
                thread_ts keywords participants with
        | Returns (Some {| url := Some u |}) => Some u
        | _ => None
        end
    end
  else None.

(** The body of the [try] up to the text of the answer. *)
Definition response_text (save_to_notion : bool) (llm : LLMService)
    (channel_id thread_ts : pystr) : outcome Exception pystr :=
  match conversations_replies world with
  | Raises e => Raises e
  | Returns thread_messages =>
      let channel_name :=
        default (py "unknown-channel")
                (get_channel_info channel_id) in
      let thread_text :=
        result (format_messages_for_llm (slack_users world) thread_messages) in
      let thread_url :=
        (py "https://slack.com/archives/") ++ channel_id
        ++ (py "/p") ++ replace [46] [] thread_ts in
      match generate_summary world llm thread_text with
      | Raises e => Raises e
      | Returns summary =>
          let participants :=
            result (extract_participants_with_email (slack_users world)
                      thread_messages) in
          Returns
            (summary
             ++ match notion_url save_to_notion llm summary channel_name
                        thread_url thread_ts participants with
                | Some (c :: u) => saved_suffix (c :: u)
                | _ => []
                end
             ++ generated_by llm)
      end
  end.

(** Lines 70 to 76: the provider flags of the text. *)
Definition select_provider (llm : LLMService) (text0 : pystr)
  : LLMService * outcome Raised pystr :=
  if contains (py "use_claude") (lower text0)
     || contains (py "クロード") text0 then
    switch_provider lower sdk llm claude
  else if contains (py "use_azure") (lower text0)
          || contains (py "アジュール") text0 then
    switch_provider lower sdk llm azure_openai
  else (llm, Returns (provider llm)).

(** Line 67: the flag that asks for the copy in Notion. *)
Definition save_requested (text0 : pystr) : bool :=
  contains (py "notion") (lower text0) || contains (py "ノーション") text0.

Definition handle_app_mentions (llm : LLMService) (event : Event) : Handled :=
  let channel_id := event_channel event in
  let thread_ts :=
    if truthy (event_thread_ts event)
    then default [] (event_thread_ts event) else event_ts event in
  let save_to_notion := save_requested (event_text event) in
  match select_provider llm (event_text event) with
  | (llm1, Raises e) =>
      {| service := llm1; sent := [];
         escaped := Some (ConfigurationError e) |}
  | (llm1, Returns _) =>
      if truthy (Some thread_ts) && truthy (event_thread_ts event) then
        let first := Say (initial_message save_to_notion) (Some thread_ts) in
        match say world (initial_message save_to_notion) (Some thread_ts) with
        | Raises e =>
            {| service := llm1; sent := [first]; escaped := Some e |}
        | Returns processing_ts =>
            let attempt :=
              match response_text save_to_notion llm1 channel_id
                      thread_ts with
              | Raises e => ([], Raises e)
              | Returns answer =>
                  ([ChatUpdate channel_id processing_ts answer],
                   chat_update world answer)
              end in
            match attempt with
            | (updates, Returns _) =>
                {| service := llm1; sent := first :: updates;
                   escaped := None |}
            | (updates, Raises e) =>
                let apology := error_message (str world e) in
                {| service := llm1;
                   sent := first :: updates
                           ++ [ChatUpdate channel_id processing_ts apology];
                   escaped :=
                     match chat_update world apology with
                     | Returns _ => None
                     | Raises e' => Some e'
                     end |}
            end
        end
      else
        {| service := llm1;
           sent := [Say (help_message llm1) None];
           escaped :=
             match say world (help_message llm1) None with
             | Returns _ => None
             | Raises e => Some e
             end |}
  end.

End Handler.

End Pipeline.

(** ** [llm_service.py]: the two generation operations *)

Module Generation.
Import LLM.

(** What a generation call raises: the [AttributeError] of a call on a
    client that is [None], or whatever the API call raised (logged, then
    raised again). *)
Inductive GenerationError : Type :=
| AttributeError
| ApiError (detail : pystr).

(** The two API calls, by their arguments: the client, the model (or the
    deployment), the system prompt, the user content and [max_tokens].
    They answer the text of the completion, or raise. *)
Record Backends := {
  messages_create :
    Anthropic → pystr → pystr → pystr → N → outcome pystr pystr;
  chat_completions_create :
    AzureOpenAI → pystr → pystr → pystr → N → outcome pystr pystr
}.

(** The [system_prompt] of [generate_summary]. *)
Definition summary_prompt : pystr :=
  join [10]
    [[];
     py "あなたはSlackのスレッドを要約する専門AIアシスタントです。";
     py "以下のSlackスレッドの内容を分析し、次の形式で簡潔に要約してください：";
     [];
     py "## スレッド要約";
     py "- **主題**: [議論の主なテーマ]";
     py "- **参加者**: [会話に参加している人々のリスト]";
     [];
     py "## 主要ポイント";
     py "- [重要なポイントを箇条書きで、最大5つ]";
     [];
     py "## 結論/次のアクション";
     py "- [合意された事項や次のアクションがあれば記載]";
     [];
     py "## 未解決の質問";
     py "- [未解決の質問があれば記載]";
     [];
     py "要約は簡潔でありながら、元のスレッドの重要な情報をすべて含むものにしてください。";
     py "各ユーザーの発言内容を「〜さんが〜と言った」という形式で要約に含めてください。";
     []].

(** The [system_prompt] of [extract_keywords]. *)
Definition keywords_prompt : pystr :=
  join [10]
    [[];
     py "以下のSlackスレッド要約から重要なキーワード（専門用語、プロジェクト名、技術名など）を最大10個抽出してください。";
     py "キーワードはカンマ区切りのリストとして返してください。";
     []].

Section WithBackends.

Variable api : Backends.

Definition _generate_with_claude (self : LLMService)
    (system_prompt content : pystr) (max_tokens : N)
  : outcome GenerationError pystr :=
  match claude_client self with
  | None => Raises AttributeError
  | Some client =>
      match messages_create api client (py "claude-3-haiku-20240307")
              system_prompt content max_tokens with
      | Returns completion => Returns completion
      | Raises detail => Raises (ApiError detail)
      end
  end.

Definition _generate_with_azure_openai (self : LLMService)
    (system_prompt content : pystr) (max_tokens : N)
  : outcome GenerationError pystr :=
  match azure_openai_client self with
  | None => Raises AttributeError
  | Some client =>
      match chat_completions_create api client (azure_openai_deployment self)
              system_prompt content max_tokens with
      | Returns completion => Returns completion
      | Raises detail => Raises (ApiError detail)
      end
  end.

Definition generate_summary (self : LLMService) (thread_text : pystr)
  : outcome GenerationError pystr :=
  if eqb (provider self) claude
  then _generate_with_claude self summary_prompt thread_text 1000
  else _generate_with_azure_openai self summary_prompt thread_text 1000.

Definition extract_keywords (self : LLMService) (summary : pystr)
  : outcome GenerationError pystr :=
  if eqb (provider self) claude
  then _generate_with_claude self keywords_prompt summary 100
  else _generate_with_azure_openai self keywords_prompt summary 100.

End WithBackends.

End Generation.

(** ** [slack_bot_summarizer.py]: the properties of the Notion page *)

Module PageProperties.
Import Slack Pipeline.

(** The label of the title line, and the title used without one. *)
Definition title_marker : pystr := Eval vm_compute in py "**主題**:".
Definition default_title : pystr := py "Slack スレッド要約".

(** What follows the first occurrence of [needle] in [s], if there is
    one: [needle in s] holds exactly when this is not [None], and a regular
    expression that begins with the literal [needle] matches there. *)
Fixpoint after (needle s : pystr) : option pystr :=
  if startswith needle s then Some (drop (length needle) s)
  else match s with
       | [] => None
       | _ :: s' => after needle s'
       end.

(** [.*]: up to the first line feed. *)
Fixpoint dot_star (s : pystr) : pystr :=
  match s with
  | [] => []
  | c :: s' => if bool_decide (c = 10) then [] else c :: dot_star s'
  end.

(** The title a line gives, when it holds the label: the group of the
    pattern of [re.search] (the label, any white space, then the rest of
    the line), stripped. *)
Definition title_of_line (line : pystr) : option pystr :=
  match after title_marker line with
  | Some rest => Some (strip (dot_star (lstrip_by isspace rest)))
  | None => None
  end.

(** The loop over the lines of the summary, left at the first line that
    holds the label. *)
Fixpoint title_of_lines (lines : list pystr) : pystr :=
  match lines with
  | [] => default_title
  | line :: lines' =>
      match title_of_line line with
      | Some title => title
      | None => title_of_lines lines'
      end
  end.

Definition extract_title (summary : pystr) : pystr :=
  title_of_lines (split 10 summary).

(** [f"{name} ({email})"] for the participants with an email. *)
Definition participant_emails (people : list Participant) : list pystr :=
  omap (λ person,
          match email person with
          | [] => None
          | c :: e => Some (name person ++ py " (" ++ c :: e ++ py ")")
          end) people.

(** The names of the participants as tags: empty names left out, each
    name cut at 100 characters. *)
Definition participant_names (people : list Participant) : list pystr :=
  omap (λ person,
          match name person with
          | [] => None
          | c :: n => Some (take 100 (c :: n))
          end) people.

(** The [properties] dict, by its keys; the three optional keys are
    [None] when the dict does not hold them. *)
Record Properties := {
  prop_title : pystr;
  prop_channel : pystr;
  prop_saved_date : pystr;
  prop_thread_date : pystr;
  prop_thread_url : pystr;
  prop_keywords : option pystr;
  prop_participant_info : option pystr;
  prop_participants : option (list pystr)
}.

Section WithClock.

(** [datetime.now()] as a date, and the date of a thread timestamp, which
    raises when the timestamp is not a number. *)
Variable today : pystr.
Variable thread_date : pystr → outcome Exception pystr.

(** Lines 350 to 465 of [save_summary_to_notion], for a [channel_name]
    that is a string. *)
Definition assemble_properties
    (summary channel_name thread_url thread_ts keywords : pystr)
    (people : list Participant) : outcome Exception Properties :=
  match thread_date thread_ts with
  | Raises e => Raises e
  | Returns thread_time =>
      Returns
        {| prop_title := extract_title summary;
           prop_channel := 35 :: channel_name;
           prop_saved_date := today;
           prop_thread_date := thread_time;
           prop_thread_url := thread_url;
           prop_keywords :=
             match keywords with [] => None | c :: k => Some (c :: k) end;
           prop_participant_info :=
             match participant_emails people with
             | [] => None
             | e :: es => Some (join (py ", ") (e :: es))
             end;
           prop_participants :=
             match participant_names people with
             | [] => None
             | n :: ns => Some (take 100 (n :: ns))
             end |}
  end.

End WithClock.

End PageProperties.

(** ** The transcript and the participants, as the specification words them *)

Module SlackSpec.
Import Slack.

Section WithClient.

Variable slack_users : pystr → option UserInfo.

(** The display name a mention of [uid] resolves to, if it does: the
    lookup must answer and the answer must hold a [real_name]. *)
Definition resolved_name (uid : pystr) : option pystr :=
  match slack_users uid with
  | Some {| real_name := Some user_name |} => Some user_name
  | _ => None
  end.

(** The text after the mentions [mentions] were resolved in turn. *)
Fixpoint resolve_mentions (mentions : list pystr) (text0 : pystr) : pystr :=
  match mentions with
  | [] => text0
  | uid :: mentions' =>
      match resolved_name uid with
      | Some user_name =>
          resolve_mentions mentions'
            (replace (mention uid) (64 :: user_name) text0)
      | None => resolve_mentions mentions' text0
      end
  end.

(** The display name of an author: the resolved name, or the fallback
    label when the lookup fails or holds no name. *)
Definition display_name (uid : pystr) : pystr :=
  match slack_users uid with
  | Some user_info => default (fallback_name uid) (real_name user_info)
  | None => fallback_name uid
  end.

(** A message counts as authored when it has an author id and does not
    carry the bot flag. *)
Definition authored (msg : RawMessage) : bool :=
  truthy (user msg) && negb (truthy (bot_id msg)).

(** The text of a line as the specification builds it, [bot] being the
    id of the bot: every reference token resolved where its id resolves
    and left unchanged where it does not, the self-mention token of the
    bot stripped, white space trimmed. *)
Definition spec_line_text (bot : pystr) (msg : RawMessage) : pystr :=
  let text0 := default [] (text msg) in
  strip (replace (mention bot) []
           (resolve_mentions (findall_mentions text0) text0)).

(** The transcript of the specification: one line, display name and
    text, for every authored message whose text is not empty after
    stripping, in the order of the input. *)
Definition spec_transcript_line (bot : pystr) (msg : RawMessage)
  : option pystr :=
  if authored msg then
    match spec_line_text bot msg with
    | [] => None
    | c :: t =>
        Some (display_name (default [] (user msg)) ++ py ": " ++ c :: t)
    end
  else None.

Definition spec_transcript (bot : pystr) (messages : list RawMessage)
  : list pystr :=
  omap (spec_transcript_line bot) messages.

(** The author ids of the authored messages, in the order of the input. *)
Definition authors (messages : list RawMessage) : list pystr :=
  omap (λ msg, if authored msg then user msg else None) messages.

(** The participant record of an author. *)
Definition participant (uid : pystr) : Participant :=
  {| user_id := uid;
     name := display_name uid;
     email :=
       match slack_users uid with
       | Some {| profile := Some {| profile_email := Some e |} |} => e
       | _ => []
       end |}.

(** A cache holds only what the client answered. *)
Definition cache_sound (cache : gmap pystr UserInfo) : Prop :=
  ∀ uid user_info,
    cache !! uid = Some user_info → slack_users uid = Some user_info.

(** The calls to [users_info] of one request: the handler builds the
    transcript, then extracts the participants, from the same messages. *)
Definition request_calls (messages : list RawMessage) : list pystr :=
  calls (let! _ := format_messages_for_llm slack_users messages in
         extract_participants_with_email slack_users messages).

End WithClient.

(** The ids of [ids] not seen yet, each at its first appearance. *)
Fixpoint first_appearances (seen : gset pystr) (ids : list pystr)
  : list pystr :=
  match ids with
  | [] => []
  | uid :: ids' =>
      if bool_decide (uid ∈ seen) then first_appearances seen ids'
      else uid :: first_appearances ({[ uid ]} ∪ seen) ids'
  end.

(** A well-formed id of a mention token: a non-empty run of [[A-Z0-9]]. *)
Definition valid_id (uid : pystr) : Prop :=
  uid ≠ [] ∧ Forall (λ c, is_id_char c = true) uid.

End SlackSpec.

(** ** The serializer as the two-state machine of the specification *)

Module NotionSpec.
Import Notion.

(** The kinds of line, in the order the serializer tests them. *)
Definition is_heading (line : pystr) : bool := startswith heading_marker line.
Definition is_bullet (line : pystr) : bool :=
  startswith bullet_marker (strip line).
Definition is_blank (line : pystr) : bool := eqb (strip line) [].

Definition heading_text (line : pystr) : pystr :=
  strip (strip_chars [35; 32] line).

(** The blocks of the lines, one line after the other, from the state
    [accumulating] (a bullet run is open) or idle. *)
Fixpoint serialize (accumulating : bool) (lines : list pystr) : list Block :=
  match lines with
  | [] => []
  | line :: lines' =>
      if is_heading line then
        heading_2 (heading_text line) :: serialize false lines'
      else if is_bullet line then
        bulleted_list_item (bullet_text line) :: serialize true lines'
      else if is_blank line then paragraph [] :: serialize false lines'
      else if negb (startswith dash (strip line)) && negb accumulating then
        paragraph (strip line) :: serialize accumulating lines'
      else serialize accumulating lines'
  end.

(** The text of a block. *)
Definition content (b : Block) : pystr :=
  match b with
  | heading_2 c | bulleted_list_item c | paragraph c => c
  end.

Definition headings_of (bs : list Block) : list pystr :=
  omap (λ b, match b with heading_2 c => Some c | _ => None end) bs.

Definition bullets_of (bs : list Block) : list pystr :=
  omap (λ b, match b with bulleted_list_item c => Some c | _ => None end) bs.

Definition paragraphs_of (bs : list Block) : list pystr :=
  omap (λ b, match b with paragraph c => Some c | _ => None end) bs.

End NotionSpec.

(** ** The lookups of the transcript builder, by author *)

Module TranscriptLoop.
Import Slack SlackSpec.

Section WithClient.

Variable slack_users : pystr → option UserInfo.


End WithClient.

End TranscriptLoop.

Module LookupSpec.
Import Slack SlackSpec.

Section WithClient.

Variable slack_users : pystr → option UserInfo.

(** The author lookups of the transcript builder over the author ids
    [ids]: an id is looked up unless an earlier lookup of it answered. *)
Fixpoint author_lookups (cached : gset pystr) (ids : list pystr)
  : list pystr :=
  match ids with
  | [] => []
  | uid :: ids' =>
      if bool_decide (uid ∈ cached) then author_lookups cached ids'
      else
        uid :: author_lookups
                 (if slack_users uid is Some _ then {[ uid ]} ∪ cached
                  else cached) ids'
  end.

End WithClient.

(** No text of [messages] holds a mention token. *)
Definition no_mentions (messages : list RawMessage) : Prop :=
  Forall (λ msg, findall_mentions (default [] (text msg)) = []) messages.

(** How many times [uid] occurs in [ids]. *)
Definition occurrences (uid : pystr) (ids : list pystr) : nat :=
  length (filter (λ x, x = uid) ids).

End LookupSpec.

(** ** Concrete inputs used by the examples below *)

Module Samples.
Import LLM Slack Notion Pipeline.

(** Constructors that accept their arguments; the Azure one refuses an
    endpoint that is not a URL. *)
Definition sdk : Sdk :=
  {| new_Anthropic := λ key, Returns {| api_key := key |};
     new_AzureOpenAI := λ key version endpoint,
       if startswith (py "http") endpoint
       then Returns {| az_api_key := key; az_api_version := version;
                       azure_endpoint := endpoint |}
       else Raises (py "InvalidURL") |}.

(** A deployment with the Anthropic key only. *)
Definition claude_only : Environ :=
  {| ANTHROPIC_API_KEY := Some (py "sk-ant-1");
     AZURE_OPENAI_API_KEY := None;
     AZURE_OPENAI_ENDPOINT := None;
     AZURE_OPENAI_DEPLOYMENT := None;
     AZURE_OPENAI_API_VERSION := None |}.

(** The service [LLMService("claude")] of that deployment. *)
Definition claude_service : LLMService :=
  {| provider := claude;
     anthropic_api_key := Some (py "sk-ant-1");
     azure_openai_api_key := None;
     azure_openai_endpoint := None;
     azure_openai_deployment := py "gpt-4";
     azure_openai_api_version := py "2023-12-01-preview";
     claude_client := Some {| api_key := py "sk-ant-1" |};
     azure_openai_client := None;
     client_inits := 1 |}.

(** A workspace with two members; every other id fails to resolve. *)
Definition directory (uid : pystr) : option UserInfo :=
  if eqb uid (py "U1") then
    Some {| real_name := Some (py "Alice");
            profile := Some {| profile_email := Some (py "alice@example.com") |} |}
  else if eqb uid (py "U2") then
    Some {| real_name := Some (py "Bob"); profile := None |}
  else None.

Definition message (author : option pystr) (bot : option pystr)
    (body : pystr) : RawMessage :=
  {| user := author; bot_id := bot; text := Some body; ts := None |}.

(** A message of Alice that mentions an id the workspace does not know. *)
Definition unknown_mention : RawMessage :=
  message (Some (py "U1")) None (py "hi <@U9>").

(** A message of Alice that is a mention of such an id and nothing
    else. *)
Definition mention_only : RawMessage :=
  message (Some (py "U1")) None (py "<@U9>").

(** A message of Alice that mentions Bob twice. *)
Definition double_mention : RawMessage :=
  message (Some (py "U1")) None (py "<@U2> and <@U2>").

(** A thread with a system message, a bot message, two authors and a
    message that is empty once stripped. *)
Definition thread : list RawMessage :=
  [ message None None (py "joined");
    message (Some (py "U2")) None (py "first");
    message (Some (py "B1")) (Some (py "B1")) (py "automated");
    message (Some (py "U1")) None (py "  ");
    message (Some (py "U1")) None (py "second");
    message (Some (py "U2")) None (py "third") ].

(** An event in a thread asking for the Notion copy, and a world where
    Slack and the model answer and the Notion request answers 500. *)
Definition notion_event : Event :=
  {| event_channel := py "C42";
     event_thread_ts := Some (py "1700000000.000100");
     event_ts := py "1700000300.000200";
     event_user := py "U1";
     event_text := py "<@UBOT> notion" |}.

Definition notion_config : NotionConfig :=
  {| NOTION_API_KEY := Some (py "secret"); NOTION_DATABASE_ID := Some (py "db") |}.

Definition notion_down : World unit :=
  {| say := λ _ _, Returns (py "1700000301.000300");
     conversations_replies := Returns thread;
     conversations_info := Returns (Some (py "general"));
     slack_users := directory;
     generate_summary := λ _ _, Returns (py "## Summary");
     extract_keywords := λ _ _, Returns (py "a, b");
     build_properties := λ _ _ _ _ _ _, Returns ();
     requests_post := λ _, Response 500 None;
     chat_update := λ _, Returns ();
     str := λ _, py "error" |}.

End Samples.

(** ** Further inputs for the examples *)

Module MoreSamples.
Import LLM Generation Slack Notion Pipeline PageProperties Samples.

(** A deployment with the credentials of both providers, and the service
    it gives for ["claude"]. *)
Definition both_providers : Environ :=
  {| ANTHROPIC_API_KEY := Some (py "sk-ant-1");
     AZURE_OPENAI_API_KEY := Some (py "az-key");
     AZURE_OPENAI_ENDPOINT := Some (py "https://example.openai.azure.com");
     AZURE_OPENAI_DEPLOYMENT := None;
     AZURE_OPENAI_API_VERSION := None |}.

Definition dual_service : LLMService :=
  {| provider := claude;
     anthropic_api_key := Some (py "sk-ant-1");
     azure_openai_api_key := Some (py "az-key");
     azure_openai_endpoint := Some (py "https://example.openai.azure.com");
     azure_openai_deployment := py "gpt-4";
     azure_openai_api_version := py "2023-12-01-preview";
     claude_client := Some {| api_key := py "sk-ant-1" |};
     azure_openai_client := None;
     client_inits := 1 |}.

(** That service after a switch to Azure. *)
Definition switched_service : LLMService :=
  {| provider := azure_openai;
     anthropic_api_key := Some (py "sk-ant-1");
     azure_openai_api_key := Some (py "az-key");
     azure_openai_endpoint := Some (py "https://example.openai.azure.com");
     azure_openai_deployment := py "gpt-4";
     azure_openai_api_version := py "2023-12-01-preview";
     claude_client := Some {| api_key := py "sk-ant-1" |};
     azure_openai_client :=
       Some {| az_api_key := py "az-key";
               az_api_version := py "2023-12-01-preview";
               azure_endpoint := py "https://example.openai.azure.com" |};
     client_inits := 2 |}.

(** The service left by a switch to Azure in the deployment that has the
    Anthropic key only. *)
Definition stranded_service : LLMService :=
  set_provider azure_openai claude_service.

(** Backends that answer the content they are given; the Claude one
    refuses a content that is empty. *)
Definition echo : Backends :=
  {| messages_create := λ _ _ _ content _,
       match content with
       | [] => Raises (py "empty content")
       | _ :: _ => Returns content
       end;
     chat_completions_create := λ _ _ _ content _, Returns content |}.

(** A summary in the form the prompt asks for. *)
Definition release_summary : pystr :=
  join [10]
    [py "## スレッド要約"; py "- **主題**:  Release plan ";
     py "- **参加者**: Alice, Bob"; []; py "## 主要ポイント"; py "- ship on Friday"].

Definition people : list Participant :=
  [{| user_id := py "U1"; name := py "Alice";
      email := py "alice@example.com" |};
   {| user_id := py "U2"; name := py "Bob"; email := [] |}].

Definition date_of (thread_ts : pystr) : outcome Exception pystr :=
  Returns (py "2023-11-14").

(** A world where every collaborator answers and the page is created. *)
Definition notion_up : World Properties :=
  {| say := λ _ _, Returns (py "1700000301.000300");
     conversations_replies := Returns thread;
     conversations_info := Returns (Some (py "general"));
     slack_users := directory;
     generate_summary := λ _ _, Returns release_summary;
     extract_keywords := λ _ _, Returns (py "release, plan");
     build_properties := assemble_properties (py "2023-11-15") date_of;
     requests_post :=
       λ _, Response 200 (Some {| url := Some (py "https://notion.so/p1") |});
     chat_update := λ _, Returns ();
     str := λ _, py "error" |}.

(** A world where the thread cannot be fetched. *)
Definition fetch_down : World unit :=
  {| say := λ _ _, Returns (py "1700000301.000300");
     conversations_replies := Raises (CallError (py "timeout"));
     conversations_info := Returns (Some (py "general"));
     slack_users := directory;
     generate_summary := λ _ _, Returns (py "## Summary");
     extract_keywords := λ _ _, Returns (py "a, b");
     build_properties := λ _ _ _ _ _ _, Returns ();
     requests_post := λ _, Response 500 None;
     chat_update := λ _, Returns ();
     str := λ e, match e with CallError d => d | _ => py "error" end |}.


(** A thread of Alice and of an author the workspace does not know. *)
Definition plain_thread : list RawMessage :=
  [ message (Some (py "U1")) None (py "one");
    message (Some (py "U9")) None (py "two");
    message (Some (py "U1")) None (py "three");
    message (Some (py "U9")) None (py "four") ].

End MoreSamples.

(** ** Tactics for closed goals *)

(** A closed equation or disequation of computed values. *)
Ltac by_evaluation := vm_compute; first [reflexivity | discriminate].

(** A character that a closed string does not hold. *)
Ltac no_such_char :=
  apply (proj1 (bool_decide_eq_false _)); vm_compute; reflexivity.

(** * Statements about the backend switch *)

Module LLMFacts.
Import LLM Samples.

Section Switch.

Variable lower : pystr → pystr.
Variable sdk : Sdk.

Lemma eqb_eq (s t : pystr) : eqb s t = true ↔ s = t.
Proof. unfold eqb. apply bool_decide_eq_true. Qed.

Lemma eqb_neq (s t : pystr) : eqb s t = false ↔ s ≠ t.
Proof. unfold eqb. apply bool_decide_eq_false. Qed.

(** [_initialize_client] never touches the provider field. *)
Lemma initialize_client_provider (s : LLMService) :
  provider (_initialize_client sdk s).1 = provider s.
Proof.
  unfold _initialize_client.
  destruct (eqb (provider s) claude).
  - destruct (anthropic_api_key s) as [[|c k]|]; try reflexivity.
    by destruct (new_Anthropic sdk (c :: k)).
  - destruct (eqb (provider s) azure_openai); [|reflexivity].
    destruct (azure_openai_api_key s) as [[|c k]|]; try reflexivity.
    destruct (azure_openai_endpoint s) as [[|d e]|]; try reflexivity.
    by destruct (new_AzureOpenAI sdk _ _ _).
Qed.

(** When [_initialize_client] returns, the provider is a supported one. *)
Lemma initialize_client_returns (s s' : LLMService) (u : unit) :
  _initialize_client sdk s = (s', Returns u) →
  provider s = claude ∨ provider s = azure_openai.
Proof.
  unfold _initialize_client.
  destruct (eqb (provider s) claude) eqn:Hc.
  { intros _. left. by apply eqb_eq. }
  destruct (eqb (provider s) azure_openai) eqn:Ha.
  { intros _. right. by apply eqb_eq. }
  discriminate.
Qed.

(** The provider of a service a program can hold is a supported one. *)
Lemma reachable_supported (s : LLMService) :
  reachable lower sdk s → provider s = claude ∨ provider s = azure_openai.
Proof.
  induction 1 as [environ p s Hinit | s p Hs IH].
  - unfold __init__ in Hinit.
    destruct (_initialize_client _) as [s' [[]|e]] eqn:E; [|discriminate].
    injection Hinit as <-.
    pose proof (initialize_client_provider
      {| provider := lower p;
         anthropic_api_key := ANTHROPIC_API_KEY environ;
         azure_openai_api_key := AZURE_OPENAI_API_KEY environ;
         azure_openai_endpoint := AZURE_OPENAI_ENDPOINT environ;
         azure_openai_deployment :=
           default (py "gpt-4") (AZURE_OPENAI_DEPLOYMENT environ);
         azure_openai_api_version :=
           default (py "2023-12-01-preview")
             (AZURE_OPENAI_API_VERSION environ);
         claude_client := None;
         azure_openai_client := None;
         client_inits := 0%nat |}) as Hp.
    rewrite E in Hp. simpl in Hp. rewrite Hp.
    apply initialize_client_returns in E. exact E.
  - unfold switch_provider.
    destruct (eqb (lower p) claude || eqb (lower p) azure_openai) eqn:Hin;
      simpl; [|exact IH].
    destruct (eqb (lower p) (provider s)); simpl; [exact IH|].
    pose proof (initialize_client_provider (set_provider (lower p) s)) as Hp.
    destruct (_initialize_client sdk (set_provider (lower p) s))
      as [s2 [[]|e]]; simpl in *; rewrite Hp;
      apply orb_true_iff in Hin as [H|H]; apply eqb_eq in H; auto.
Qed.

(** C2.  Switching to a name whose lower-cased form is neither ["claude"]
    nor ["azure_openai"] raises the [ValueError] of the unsupported provider
    and leaves the service as it was: the provider field and both client
    fields are those of before the call. *)
Theorem switch_provider_unsupported (self : LLMService) (name : pystr) :
  lower name ≠ claude → lower name ≠ azure_openai →
  switch_provider lower sdk self name = (self, Raises (value_error UnsupportedProvider)).
Proof.
  intros Hc Ha. unfold switch_provider.
  apply eqb_neq in Hc, Ha. rewrite Hc, Ha. reflexivity.
Qed.

(** C10.  Switching to the provider that is active already does nothing:
    the service, with its provider field, its two clients and the number of
    clients constructed so far, is unchanged, and the active provider is
    returned. *)
Theorem switch_provider_same (self : LLMService) (name : pystr) :
  reachable lower sdk self → lower name = provider self →
  switch_provider lower sdk self name = (self, Returns (provider self)).
Proof.
  intros Hr Hname. unfold switch_provider. rewrite Hname.
  destruct (reachable_supported self Hr) as [H|H];
    rewrite H; reflexivity.
Qed.

End Switch.

Lemma claude_service_init :
  __init__ ascii_lower sdk claude_only (py "claude") = Returns claude_service.
Proof. reflexivity. Qed.

Lemma switch_provider_unsupported_witness :
  ascii_lower (py "GPT-4") ≠ claude ∧
  ascii_lower (py "GPT-4") ≠ azure_openai ∧
  switch_provider ascii_lower sdk claude_service (py "GPT-4")
  = (claude_service, Raises (value_error UnsupportedProvider)).
Proof.
  assert (H1 : ascii_lower (py "GPT-4") ≠ claude)
    by (vm_compute; discriminate).
  assert (H2 : ascii_lower (py "GPT-4") ≠ azure_openai)
    by (vm_compute; discriminate).
  split; [exact H1|]. split; [exact H2|].
  exact (switch_provider_unsupported ascii_lower sdk claude_service (py "GPT-4")
           H1 H2).
Defined.

Lemma switch_provider_same_witness :
  reachable ascii_lower sdk claude_service ∧
  ascii_lower (py "Claude") = provider claude_service ∧
  switch_provider ascii_lower sdk claude_service (py "Claude")
  = (claude_service, Returns claude).
Proof.
  assert (H1 : reachable ascii_lower sdk claude_service).
  { exact (reachable_init ascii_lower sdk claude_only (py "claude")
             claude_service claude_service_init). }
  split; [exact H1|]. split; [reflexivity|].
  exact (switch_provider_same ascii_lower sdk claude_service (py "Claude")
           H1 eq_refl).
Defined.

(** C1, at the input where the code departs from it.  In a deployment
    with the Anthropic key only, the service built for ["claude"] is usable;
    after [switch_provider("azure_openai")] the call has raised, the provider
    field already names the Azure backend, and the client of that backend is
    [None]: the previous backend is no longer active and the active one has
    no client. *)
Theorem switch_provider_missing_credentials :
  __init__ ascii_lower sdk claude_only (py "claude") = Returns claude_service ∧
  active_client_usable claude_service = true ∧
  (switch_provider ascii_lower sdk claude_service (py "azure_openai")).2
    = Raises (value_error IncompleteAzureConfig) ∧
  provider (switch_provider ascii_lower sdk claude_service (py "azure_openai")).1
    = azure_openai ∧
  azure_openai_client
    (switch_provider ascii_lower sdk claude_service (py "azure_openai")).1 = None ∧
  active_client_usable
    (switch_provider ascii_lower sdk claude_service (py "azure_openai")).1 = false.
Proof. repeat split; reflexivity. Qed.

End LLMFacts.

(** * Statements about the block serializer *)

Module NotionFacts.
Import Notion.

(** [lstrip] of a string extended by one character. *)
Lemma lstrip_by_snoc (p : N → bool) (s : pystr) (c : N) :
  lstrip_by p (s ++ [c]) =
  match lstrip_by p s with
  | [] => if p c then [] else [c]
  | r => r ++ [c]
  end.
Proof.
  induction s as [|a s IH]; simpl.
  - destruct (p c); reflexivity.
  - destruct (p a); [exact IH | reflexivity].
Qed.

(** [rstrip] keeps a first character that is not stripped. *)
Lemma rstrip_by_cons (p : N → bool) (c : N) (s : pystr) :
  p c = false → rstrip_by p (c :: s) = c :: rstrip_by p s.
Proof.
  intros Hc. unfold rstrip_by. simpl. rewrite lstrip_by_snoc, Hc.
  destruct (lstrip_by p (rev s)); simpl; [reflexivity|].
  by rewrite rev_app_distr.
Qed.

Lemma strip_by_cons (p : N → bool) (c : N) (s : pystr) :
  p c = false → strip_by p (c :: s) = c :: rstrip_by p s.
Proof.
  intros Hc. unfold strip_by. simpl. rewrite Hc. by apply rstrip_by_cons.
Qed.

(** A line that starts with the heading marker is not a bullet line. *)
Lemma heading_not_bullet (line : pystr) :
  startswith heading_marker line = true →
  startswith bullet_marker (strip line) = false.
Proof.
  destruct line as [|a line]; [discriminate|].
  unfold heading_marker. simpl.
  case_bool_decide as Ha; [subst a|discriminate]. intros _.
  unfold strip. rewrite strip_by_cons by reflexivity. reflexivity.
Qed.

Lemma bullet_not_heading (line : pystr) :
  startswith bullet_marker (strip line) = true →
  startswith heading_marker line = false.
Proof.
  intros Hb. destruct (startswith heading_marker line) eqn:Hh; [|done].
  apply heading_not_bullet in Hh. congruence.
Qed.

(** The bullet marker begins with a dash. *)
Lemma bullet_starts_with_dash (s : pystr) :
  startswith dash s = false → startswith bullet_marker s = false.
Proof.
  destruct s as [|a s]; [done|]. unfold dash, bullet_marker. simpl.
  case_bool_decide; [discriminate|done].
Qed.

Lemma flush_bullets (points : list pystr) :
  flush points = bulleted_list_item <$> points.
Proof. destruct points; reflexivity. Qed.

(** A run of bullet lines only extends the accumulation. *)
Lemma convert_bullet_lines (st : Serializer) (lines : list pystr) :
  Forall (λ line, startswith bullet_marker (strip line) = true) lines →
  convert_lines st lines =
  {| blocks := blocks st;
     current_heading := current_heading st;
     bullet_points := bullet_points st ++ (bullet_text <$> lines) |}.
Proof.
  intros Hall. revert st.
  induction Hall as [|line lines Hline _ IH]; intros st; simpl.
  - rewrite app_nil_r. by destruct st.
  - unfold convert_lines in *. simpl. rewrite IH.
    unfold convert_line. rewrite (bullet_not_heading _ Hline), Hline.
    simpl. by rewrite <- app_assoc.
Qed.

Lemma convert_lines_snoc (st : Serializer) (lines : list pystr) (l : pystr) :
  convert_lines st (lines ++ [l]) = convert_line (convert_lines st lines) l.
Proof. unfold convert_lines. by rewrite foldl_app. Qed.

(** The claim of C5 fails on a line such as [-foo]: it is not blank, starts
    neither with the heading marker nor with the bullet marker, no bullet
    is being accumulated, and yet no paragraph is emitted for it. *)
Lemma dash_line_not_a_paragraph :
  strip (py "-foo") ≠ [] ∧
  startswith heading_marker (py "-foo") = false ∧
  startswith bullet_marker (py "-foo") = false ∧
  startswith bullet_marker (strip (py "-foo")) = false ∧
  bullet_points start = [] ∧
  blocks (convert_line start (py "-foo")) = [] ∧
  blocks (convert_line start (py "-foo"))
    ≠ blocks start ++ [paragraph (strip (py "-foo"))].
Proof. vm_compute. repeat split; discriminate. Qed.

(** C5, amended.  A line that is not blank, does not start with the
    heading marker and whose trimmed form does not start with a dash is
    emitted as one paragraph block holding the trimmed line when no bullet
    is being accumulated, and produces no block when bullets are being
    accumulated; a line whose trimmed form starts with a dash that is not
    the bullet marker produces no block in either state. *)
Theorem other_line_paragraph (st : Serializer) (line : pystr) :
  startswith heading_marker line = false →
  (strip line ≠ [] → startswith dash (strip line) = false →
   (bullet_points st = [] →
    convert_line st line =
    {| blocks := blocks st ++ [paragraph (strip line)];
       current_heading := current_heading st;
       bullet_points := [] |}) ∧
   (bullet_points st ≠ [] → convert_line st line = st)) ∧
  (startswith dash (strip line) = true →
   startswith bullet_marker (strip line) = false →
   convert_line st line = st).
Proof.
  intros Hh. split.
  - intros Hblank Hdash.
    pose proof (bullet_starts_with_dash _ Hdash) as Hb.
    unfold convert_line. rewrite Hh, Hb, Hdash.
    replace (eqb (strip line) []) with false
      by (symmetry; by apply bool_decide_eq_false).
    simpl. split; intros Hacc.
    + rewrite Hacc. reflexivity.
    + rewrite bool_decide_eq_false_2 by done. reflexivity.
  - intros Hdash Hb. unfold convert_line. rewrite Hh, Hb, Hdash.
    destruct (eqb (strip line) []) eqn:E; [|reflexivity].
    apply bool_decide_eq_true in E. rewrite E in Hdash. discriminate.
Qed.

Lemma other_line_paragraph_witness :
  startswith heading_marker (py " plain text ") = false ∧
  strip (py " plain text ") ≠ [] ∧
  startswith dash (strip (py " plain text ")) = false ∧
  convert_line start (py " plain text ") =
  {| blocks := [paragraph (py "plain text")];
     current_heading := None; bullet_points := [] |}.
Proof.
  split; [reflexivity|]. split; [vm_compute; discriminate|].
  split; [reflexivity|].
  refine (proj1 (proj1 (other_line_paragraph start (py " plain text ") _)
                   _ _) _);
    first [reflexivity | vm_compute; discriminate].
Defined.

(** The claim of C6 fails on a run of three lines that start with the
    bullet marker, the second holding the marker and nothing else: trimmed,
    that line is a lone dash, and the run yields two bullet blocks. *)
Lemma marker_only_line_dropped :
  startswith bullet_marker (py "- a") = true ∧
  startswith bullet_marker (py "- ") = true ∧
  startswith bullet_marker (py "- b") = true ∧
  strip (py "- ") = dash ∧
  convert_summary_to_notion_blocks (join [10] [py "- a"; py "- "; py "- b"])
  = [bulleted_list_item (py "a"); bulleted_list_item (py "b")] ∧
  length (convert_summary_to_notion_blocks
            (join [10] [py "- a"; py "- "; py "- b"])) ≠ 3%nat.
Proof. vm_compute. repeat split; discriminate. Qed.

(** C6, amended.  The summary of the scenario is serialized into the six
    blocks heading, bullet, bullet, empty paragraph, heading, bullet.  More
    generally, a run of lines whose trimmed form starts with the bullet
    marker emits nothing by itself, and when it is flushed it yields one
    bullet block per line, in the order of the lines, after the bullets
    that were pending before the run (none after a heading, a blank line
    or at the start): flushed by the end of the input, by a heading line
    (followed by the heading block) or by a blank line (followed by an
    empty paragraph).  A line that starts with the marker while its
    trimmed form does not, the marker followed by white space only, is no
    bullet line: it leaves the serializer as it was. *)
Theorem bullet_run_blocks :
  convert_summary_to_notion_blocks
    (join [10] [py "## 主題"; py "- a"; py "- b"; []; py "## 結論"; py "- c"])
  = [heading_2 (py "主題"); bulleted_list_item (py "a");
     bulleted_list_item (py "b"); paragraph [];
     heading_2 (py "結論"); bulleted_list_item (py "c")] ∧
  ∀ (st : Serializer) (lines : list pystr),
    Forall (λ line, startswith bullet_marker (strip line) = true) lines →
    let pending := bulleted_list_item <$> bullet_points st in
    let bullets := bulleted_list_item <$> (bullet_text <$> lines) in
    length bullets = length lines ∧
    blocks (convert_lines st lines) = blocks st ∧
    finish (convert_lines st lines) = blocks st ++ pending ++ bullets ∧
    (∀ h, startswith heading_marker h = true →
       blocks (convert_lines st (lines ++ [h]))
       = blocks st ++ pending ++ bullets
         ++ [heading_2 (strip (strip_chars [35; 32] h))] ∧
       bullet_points (convert_lines st (lines ++ [h])) = []) ∧
    (∀ b, startswith heading_marker b = false → strip b = [] →
       blocks (convert_lines st (lines ++ [b]))
       = blocks st ++ pending ++ bullets ++ [paragraph []] ∧
       bullet_points (convert_lines st (lines ++ [b])) = []) ∧
    (∀ line, startswith bullet_marker line = true →
       startswith bullet_marker (strip line) = false →
       convert_line st line = st).
Proof.
  split; [reflexivity|].
  intros st lines Hall pending bullets.
  pose proof (convert_bullet_lines st lines Hall) as Hrun.
  assert (Hflush : flush (bullet_points st ++ (bullet_text <$> lines))
                   = pending ++ bullets)
    by (rewrite flush_bullets; apply fmap_app).
  split; [unfold bullets; by rewrite !length_fmap|].
  split; [by rewrite Hrun|].
  split; [unfold finish; rewrite Hrun; simpl; by rewrite Hflush|].
  split.
  - intros h Hh. rewrite convert_lines_snoc, Hrun.
    unfold convert_line. rewrite Hh. simpl.
    by rewrite Hflush, <- app_assoc.
  - split.
    + intros b Hh Hb. rewrite convert_lines_snoc, Hrun.
      unfold convert_line. rewrite Hh, Hb. simpl.
      by rewrite Hflush, <- app_assoc.
    + intros line Hline Hb. unfold convert_line. rewrite Hb.
      destruct line as [|c line]; [discriminate|].
      unfold bullet_marker in Hline. simpl in Hline.
      case_bool_decide as Hc; [subst c|discriminate].
      unfold strip. rewrite strip_by_cons by reflexivity. reflexivity.
Qed.

Lemma bullet_run_blocks_witness :
  Forall (λ line, startswith bullet_marker (strip line) = true)
    [py "- a"; py "  - b "] ∧
  finish (convert_lines start [py "- a"; py "  - b "])
  = [bulleted_list_item (py "a"); bulleted_list_item (py "b")].
Proof.
  assert (H : Forall (λ line, startswith bullet_marker (strip line) = true)
                [py "- a"; py "  - b "])
    by (repeat constructor).
  split; [exact H|].
  exact (proj1 (proj2 (proj2
    (proj2 bullet_run_blocks start [py "- a"; py "  - b "] H)))).
Defined.

End NotionFacts.

(** * Statements about the transcript and the participants *)

Module SlackFacts.
Import Slack SlackSpec TranscriptLoop Samples.

(** *** The scan for mention tokens *)

Lemma span_id_spec (s : pystr) :
  s = (span_id s).1 ++ (span_id s).2 ∧
  Forall (λ c, is_id_char c = true) (span_id s).1 ∧
  match (span_id s).2 with
  | [] => True
  | d :: _ => is_id_char d = false
  end.
Proof.
  induction s as [|c s (IH1 & IH2 & IH3)]; simpl; [done|].
  destruct (is_id_char c) eqn:Hc.
  - destruct (span_id s) as [u r]. simpl in *.
    split; [by f_equal|]. split; [by constructor|done].
  - simpl. done.
Qed.

(** The run of id characters of a well-formed id followed by [>]. *)
Lemma span_id_token (u r : pystr) :
  Forall (λ c, is_id_char c = true) u → span_id (u ++ 62 :: r) = (u, 62 :: r).
Proof.
  induction 1 as [|c u Hc _ IH]; simpl; [done|].
  by rewrite Hc, IH.
Qed.

(** A match at the start of [s] is a token that [s] begins with. *)
Lemma match_mention_Some (s u : pystr) :
  match_mention s = Some u →
  valid_id u ∧ ∃ r, s = mention u ++ r.
Proof.
  unfold match_mention.
  destruct s as [|a [|b s]]; try discriminate.
  destruct (bool_decide (a = 60)) eqn:Ha; [|discriminate].
  destruct (bool_decide (b = 64)) eqn:Hb; [|discriminate]. simpl.
  apply bool_decide_eq_true in Ha, Hb. subst a b.
  destruct (span_id_spec s) as (Hs & Hid & _).
  destruct (span_id s) as [[|c w] [|d r]]; simpl in *; try discriminate.
  case_bool_decide as Hd; [subst d|discriminate].
  intros [= <-]. split; [by split|].
  exists r. unfold mention. rewrite Hs. simpl.
  by rewrite <- app_assoc.
Qed.

(** A token at the start of a string is matched. *)
Lemma match_mention_token (u r : pystr) :
  valid_id u → match_mention (mention u ++ r) = Some u.
Proof.
  intros [Hne Hid]. unfold match_mention, mention. simpl.
  rewrite <- app_assoc. simpl. rewrite span_id_token by done.
  destruct u; [done|]. reflexivity.
Qed.

Lemma mention_length (u : pystr) : length (mention u) = (length u + 3)%nat.
Proof. unfold mention. simpl. rewrite length_app. simpl. lia. Qed.

(** No character of a token but the first is [<]. *)
Lemma valid_id_no_lt (u : pystr) :
  Forall (λ c, is_id_char c = true) u → 60 ∉ u.
Proof.
  intros Hid Hin. rewrite Forall_forall in Hid.
  apply Hid in Hin. discriminate.
Qed.

Lemma findall_from_cons (c : N) (s : pystr) :
  findall_from 0 (c :: s) =
  match match_mention (c :: s) with
  | Some u => u :: findall_from (length u + 2) s
  | None => findall_from 0 s
  end.
Proof. reflexivity. Qed.

Lemma sub_from_cons (c : N) (s : pystr) :
  sub_from 0 (c :: s) =
  match match_mention (c :: s) with
  | Some u => sub_from (length u + 2) s
  | None => c :: sub_from 0 s
  end.
Proof. reflexivity. Qed.

Lemma replace_from_cons (old new : pystr) (c : N) (s : pystr) :
  replace_from old new 0 (c :: s) =
  if startswith old (c :: s)
  then new ++ replace_from old new (length old - 1) s
  else c :: replace_from old new 0 s.
Proof. reflexivity. Qed.

(** Every id found by the scan is well formed, and its token occurs in the
    text. *)
Lemma findall_from_occurs (k : nat) (s u : pystr) :
  u ∈ findall_from k s →
  valid_id u ∧ ∃ a b, s = a ++ mention u ++ b.
Proof.
  revert k. induction s as [|c s IH]; intros k Hin.
  { simpl in Hin. by apply elem_of_nil in Hin. }
  assert (Htail : ∀ k', u ∈ findall_from k' s →
            valid_id u ∧ ∃ a b, c :: s = a ++ mention u ++ b).
  { intros k' H. destruct (IH k' H) as (Hv & a & b & ->).
    split; [done|]. by exists (c :: a), b. }
  destruct k as [|k]; [|by apply (Htail k)].
  rewrite findall_from_cons in Hin.
  destruct (match_mention (c :: s)) as [w|] eqn:Hm; [|by apply (Htail 0%nat)].
  apply elem_of_cons in Hin as [->|Hin]; [|by apply (Htail _ Hin)].
  apply match_mention_Some in Hm as (Hv & r & Hr).
  split; [done|]. exists [], r. by rewrite Hr.
Qed.

(** Passing over the characters of a match. *)
Lemma sub_from_skip (x b : pystr) :
  sub_from (length x) (x ++ b) = sub_from 0 b.
Proof. induction x as [|c x IH]; [done|exact IH]. Qed.

Lemma span_id_before_lt (s r : pystr) :
  span_id (s ++ 60 :: r) = ((span_id s).1, (span_id s).2 ++ 60 :: r).
Proof.
  induction s as [|c s IH]; simpl; [done|].
  destruct (is_id_char c); [|done].
  rewrite IH. by destruct (span_id s).
Qed.

(** A match that starts before a [<] does not depend on what follows
    that [<]. *)
Lemma match_mention_before_lt (a r : pystr) :
  a ≠ [] → match_mention (a ++ 60 :: r) = match_mention a.
Proof.
  intros Ha. destruct a as [|x [|y a]]; [done| |].
  - simpl. by rewrite andb_false_r.
  - change ((x :: y :: a) ++ 60 :: r) with (x :: y :: (a ++ 60 :: r)).
    unfold match_mention.
    destruct (bool_decide (x = 60) && bool_decide (y = 64)); [|done].
    rewrite span_id_before_lt.
    destruct (span_id a) as [[|c w] [|d r']]; simpl; done.
Qed.

(** The scan of [re.sub] up to a [<] does not depend on what follows
    it. *)
Lemma sub_from_before_lt (a r : pystr) (k : nat) :
  (k ≤ length a)%nat →
  sub_from k (a ++ 60 :: r) = sub_from k a ++ sub_from 0 (60 :: r).
Proof.
  revert k. induction a as [|c a IH]; intros k Hk.
  { simpl in Hk. by replace k with 0%nat by lia. }
  destruct k as [|k].
  - change ((c :: a) ++ 60 :: r) with (c :: (a ++ 60 :: r)).
    rewrite !sub_from_cons.
    change (c :: (a ++ 60 :: r)) with ((c :: a) ++ 60 :: r).
    rewrite match_mention_before_lt by done.
    destruct (match_mention (c :: a)) as [u|] eqn:Hm.
    + apply IH. apply match_mention_Some in Hm as (_ & r' & Hr).
      apply (f_equal length) in Hr.
      rewrite length_app, mention_length in Hr. simpl in Hr. lia.
    + simpl. f_equal. apply IH. lia.
  - simpl. apply IH. simpl in Hk. lia.
Qed.

(** [re.sub] deletes a token and treats what is around it on its own. *)
Lemma sub_mentions_token (a u b : pystr) :
  valid_id u →
  sub_mentions (a ++ mention u ++ b) = sub_mentions a ++ sub_mentions b.
Proof.
  intros Hu. unfold sub_mentions.
  change (mention u ++ b) with (60 :: (64 :: u ++ [62]) ++ b).
  rewrite sub_from_before_lt by lia. f_equal.
  rewrite sub_from_cons.
  change (60 :: (64 :: u ++ [62]) ++ b) with (mention u ++ b).
  rewrite match_mention_token by done.
  replace (length u + 2)%nat with (length (64 :: u ++ [62]))
    by (simpl; rewrite length_app; simpl; lia).
  apply sub_from_skip.
Qed.

(** *** [str.replace] of a token *)

Lemma startswith_prefix (p s : pystr) :
  startswith p s = true ↔ ∃ r, s = p ++ r.
Proof.
  revert s. induction p as [|a p IH]; intros s; simpl.
  { split; [by exists s|done]. }
  destruct s as [|b s].
  { split; [done|]. by intros [r Hr]. }
  rewrite andb_true_iff, bool_decide_eq_true, IH. split.
  - intros [-> [r ->]]. by exists r.
  - intros [r [= -> ->]]. eauto.
Qed.

(** A string without [<] that lies across a [<] ends before it. *)
Lemma no_lt_before_lt (x r0 a r : pystr) :
  60 ∉ x → x ++ r0 = a ++ 60 :: r → (length x ≤ length a)%nat.
Proof.
  revert a. induction x as [|c x IH]; intros a Hx Heq; simpl.
  { apply Nat.le_0_l. }
  apply not_elem_of_cons in Hx as [Hc Hx].
  destruct a as [|d a]; simpl in Heq.
  - injection Heq as Heq _. by destruct Hc.
  - injection Heq as _ Heq. specialize (IH a Hx Heq). simpl. lia.
Qed.

(** Two tokens, one at the start of the other: the same id. *)
Lemma token_prefix_inj (v u r0 r : pystr) :
  Forall (λ c, is_id_char c = true) v →
  Forall (λ c, is_id_char c = true) u →
  v ++ 62 :: r0 = u ++ 62 :: r → v = u.
Proof.
  intros Hv. revert u. induction Hv as [|c v Hc _ IH]; intros u Hu Heq.
  - destruct Hu as [|d u Hd _]; [done|]. simplify_eq/=.
  - destruct Hu as [|d u Hd Hu]; simplify_eq/=. f_equal. by apply IH.
Qed.

Lemma startswith_other_token (v u b : pystr) :
  valid_id v → valid_id u → u ≠ v →
  startswith (mention v) (mention u ++ b) = false.
Proof.
  intros [_ Hv] [_ Hu] Hne.
  destruct (startswith (mention v) (mention u ++ b)) eqn:E; [|done].
  apply startswith_prefix in E as [r Hr]. unfold mention in Hr.
  simpl in Hr. rewrite <- !app_assoc in Hr. simpl in Hr.
  injection Hr as Hr. symmetry in Hr.
  apply token_prefix_inj in Hr; done.
Qed.

(** The scan of [replace] for a token, up to a [<], does not depend on
    what follows it. *)
Lemma replace_from_before_lt (v new a r : pystr) (k : nat) :
  valid_id v → (k ≤ length a)%nat →
  ∃ x, replace_from (mention v) new k (a ++ 60 :: r)
       = x ++ replace_from (mention v) new 0 (60 :: r).
Proof.
  intros [_ Hv]. revert k. induction a as [|c a IH]; intros k Hk.
  { simpl in Hk. replace k with 0%nat by lia. by exists []. }
  destruct k as [|k].
  - change ((c :: a) ++ 60 :: r) with (c :: (a ++ 60 :: r)).
    rewrite replace_from_cons.
    destruct (startswith (mention v) (c :: a ++ 60 :: r)) eqn:E.
    + apply startswith_prefix in E as [r0 Hr0].
      unfold mention in Hr0. injection Hr0 as -> Hr0. symmetry in Hr0.
      change (64 :: (v ++ [62]) ++ r0) with ((64 :: v ++ [62]) ++ r0) in Hr0.
      apply no_lt_before_lt in Hr0.
      * destruct (IH (length (mention v) - 1)%nat) as [x Hx].
        { rewrite mention_length. simpl in Hr0.
          rewrite length_app in Hr0. simpl in Hr0. lia. }
        exists (new ++ x). by rewrite Hx, app_assoc.
      * rewrite not_elem_of_cons, not_elem_of_app, not_elem_of_cons.
        split; [done|]. split; [by apply valid_id_no_lt|].
        split; [done|apply not_elem_of_nil].
    + destruct (IH 0%nat) as [x Hx]; [lia|].
      exists (c :: x). simpl. by rewrite Hx.
  - simpl. apply IH. simpl in Hk. lia.
Qed.

(** No replacement starts in a stretch without [<]. *)
Lemma replace_from_no_lt (v new x b : pystr) :
  60 ∉ x →
  replace_from (mention v) new 0 (x ++ b)
  = x ++ replace_from (mention v) new 0 b.
Proof.
  induction x as [|c x IH]; intros Hx; [done|].
  apply not_elem_of_cons in Hx as [Hc Hx].
  change ((c :: x) ++ b) with (c :: (x ++ b)).
  rewrite replace_from_cons.
  replace (startswith (mention v) (c :: x ++ b)) with false.
  - simpl. f_equal. by apply IH.
  - unfold mention. simpl. by rewrite bool_decide_eq_false_2 by done.
Qed.

(** Replacing the token of one id keeps a token of another id. *)
Lemma replace_keeps_token (v u new a b : pystr) :
  valid_id v → valid_id u → u ≠ v →
  ∃ a' b', replace (mention v) new (a ++ mention u ++ b)
           = a' ++ mention u ++ b'.
Proof.
  intros Hv Hu Hne. unfold replace.
  change (mention u ++ b) with (60 :: (64 :: u ++ [62]) ++ b).
  destruct (replace_from_before_lt v new a ((64 :: u ++ [62]) ++ b) 0 Hv)
    as [x Hx]; [lia|].
  rewrite Hx. exists x, (replace_from (mention v) new 0 b).
  f_equal. rewrite replace_from_cons.
  change (60 :: (64 :: u ++ [62]) ++ b) with (mention u ++ b).
  rewrite startswith_other_token by done.
  rewrite replace_from_no_lt; [done|].
  destruct Hu as [_ Hu].
  rewrite not_elem_of_cons, not_elem_of_app, not_elem_of_cons.
  split; [done|]. split; [by apply valid_id_no_lt|].
  split; [done|apply not_elem_of_nil].
Qed.

Section WithClient.

Variable slack_users : pystr → option UserInfo.

(** [process_mentions] calls [users_info] once for each id of the list,
    in order, and returns the text with the resolved ones replaced. *)
Lemma process_mentions_loop_run (mentions : list pystr) (text0 : pystr)
    (log : list pystr) :
  process_mentions_loop slack_users mentions text0 log
  = (resolve_mentions slack_users mentions text0, log ++ mentions).
Proof.
  revert text0 log. induction mentions as [|uid ms IH]; intros text0 log.
  { simpl. unfold ret. by rewrite app_nil_r. }
  simpl. unfold bind, users_info, resolved_name.
  destruct (slack_users uid) as [[[n|] pr]|]; rewrite IH;
    by rewrite <- app_assoc.
Qed.

Lemma process_mentions_run (text0 : pystr) (log : list pystr) :
  process_mentions slack_users text0 log
  = (resolve_mentions slack_users (findall_mentions text0) text0,
     log ++ findall_mentions text0).
Proof. apply process_mentions_loop_run. Qed.

Lemma line_text_run (msg : RawMessage) (log : list pystr) :
  line_text slack_users msg log
  = (strip (sub_mentions
       (resolve_mentions slack_users
          (findall_mentions (default [] (text msg)))
          (default [] (text msg)))),
     log ++ findall_mentions (default [] (text msg))).
Proof. unfold line_text, bind. by rewrite process_mentions_run. Qed.

(** Resolving other mentions keeps the token of an id that does not
    resolve. *)
Lemma resolve_mentions_keeps_token (uid : pystr) (mentions : list pystr) :
  valid_id uid → resolved_name slack_users uid = None →
  Forall valid_id mentions →
  ∀ text0, (∃ a b, text0 = a ++ mention uid ++ b) →
  ∃ a b, resolve_mentions slack_users mentions text0 = a ++ mention uid ++ b.
Proof.
  intros Hu Hnone Hall.
  induction Hall as [|v ms Hv _ IH]; intros text0 Hocc; [done|].
  simpl. destruct (resolved_name slack_users v) as [n|] eqn:Hn;
    [|by apply IH].
  apply IH. destruct Hocc as (a & b & ->).
  apply replace_keeps_token; [done..|]. congruence.
Qed.

End WithClient.


(** *** The participants *)

Lemma first_appearances_elem (ids : list pystr) (seen : gset pystr)
    (uid : pystr) :
  uid ∈ first_appearances seen ids ↔ uid ∈ ids ∧ uid ∉ seen.
Proof.
  revert seen. induction ids as [|x ids IH]; intros seen; simpl.
  { rewrite !elem_of_nil. tauto. }
  case_bool_decide as Hx.
  - rewrite IH, elem_of_cons. split; [tauto|].
    intros [[->|H] Hs]; [done|tauto].
  - rewrite !elem_of_cons, IH. split.
    + intros [->|[H Hs]]; [tauto|].
      apply not_elem_of_union in Hs as [_ Hs]. tauto.
    + intros [[->|H] Hs]; [tauto|].
      destruct (decide (uid = x)) as [->|Hne]; [tauto|].
      right. split; [done|].
      rewrite not_elem_of_union, not_elem_of_singleton. done.
Qed.

Lemma first_appearances_NoDup (ids : list pystr) (seen : gset pystr) :
  NoDup (first_appearances seen ids).
Proof.
  revert seen. induction ids as [|x ids IH]; intros seen; simpl.
  { constructor. }
  case_bool_decide as Hx; [apply IH|].
  constructor; [|apply IH].
  rewrite first_appearances_elem. intros [_ Hn].
  apply Hn, elem_of_union. left. by apply elem_of_singleton.
Qed.

(** An id is emitted at its first appearance: whatever appears before it
    in the input was seen already or was emitted before it. *)
Lemma first_appearances_order (ids : list pystr) (seen : gset pystr)
    (l1 l2 : list pystr) (uid : pystr) :
  first_appearances seen ids = l1 ++ uid :: l2 →
  ∃ a b, ids = a ++ uid :: b ∧ (uid ∉ a) ∧ (uid ∉ seen) ∧
         ∀ y, y ∈ a → y ∈ seen ∨ y ∈ l1.
Proof.
  revert seen l1. induction ids as [|x ids IH]; intros seen l1; simpl.
  { by destruct l1. }
  case_bool_decide as Hx.
  - intros H. destruct (IH _ _ H) as (a & b & -> & Ha & Hs & Hy).
    exists (x :: a), b. split; [done|].
    split; [apply not_elem_of_cons; split; [by intros ->|done]|].
    split; [done|]. intros y [->|Hin]%elem_of_cons; [by left|by apply Hy].
  - destruct l1 as [|z l1]; simpl; intros [= -> H].
    + exists [], ids. split; [done|]. split; [apply not_elem_of_nil|].
      split; [done|]. by intros y Hy%elem_of_nil.
    + destruct (IH _ _ H) as (a & b & -> & Ha & Hs & Hy).
      apply not_elem_of_union in Hs as [Hz Hs].
      apply not_elem_of_singleton in Hz.
      exists (z :: a), b. split; [done|].
      split; [by apply not_elem_of_cons|]. split; [done|].
      intros y [->|Hin]%elem_of_cons; [right; by left|].
      destruct (Hy y Hin) as [Hys|Hyl]; [|right; by right].
      apply elem_of_union in Hys as [->%elem_of_singleton|Hys];
        [right; by left|by left].
Qed.

Section WithClient.

Variable slack_users : pystr → option UserInfo.

Lemma cache_sound_empty : cache_sound slack_users ∅.
Proof. intros uid user_info H. by rewrite lookup_empty in H. Qed.

(** The author lookup answers what the client answers, or the fallback,
    whatever the cache holds, and keeps the cache sound. *)
Lemma cached_user_info_run (fallback : UserInfo)
    (cache : gmap pystr UserInfo) (uid : pystr) (log : list pystr) :
  cache_sound slack_users cache →
  ∃ cache' log',
    cached_user_info slack_users fallback cache uid log
    = ((default fallback (slack_users uid), cache'), log') ∧
    cache_sound slack_users cache'.
Proof.
  intros Hc. unfold cached_user_info.
  destruct (cache !! uid) as [user_info|] eqn:Hl.
  - exists cache, log. rewrite (Hc _ _ Hl). done.
  - unfold bind, users_info, ret.
    destruct (slack_users uid) as [user_info|] eqn:Hu.
    + eexists _, _. split; [done|].
      intros u i. rewrite lookup_insert.
      case_decide; [|by apply Hc]. by intros [= <-]; subst.
    + by eexists _, _.
Qed.


(** The name [format_messages_for_llm] and the extractor give an author. *)
Lemma username_display_name (uid : pystr) (pr : option Profile) :
  default (fallback_name uid)
    (real_name (default {| real_name := Some (fallback_name uid);
                           profile := pr |} (slack_users uid)))
  = display_name slack_users uid.
Proof. unfold display_name. by destruct (slack_users uid). Qed.




(** The record the extractor builds for an author. *)
Lemma extracted_participant (uid : pystr) :
  {| user_id := uid;
     name := default (fallback_name uid)
               (real_name
                  (default {| real_name := Some (fallback_name uid);
                              profile := Some {| profile_email := None |} |}
                           (slack_users uid)));
     email := default []
                (profile_email
                   (default {| profile_email := None |}
                      (profile
                         (default
                            {| real_name := Some (fallback_name uid);
                               profile := Some {| profile_email := None |} |}
                            (slack_users uid))))) |}
  = participant slack_users uid.
Proof.
  unfold participant. rewrite username_display_name. f_equal.
  destruct (slack_users uid) as [[n [[[e|]]|]]|]; reflexivity.
Qed.

(** One turn of the extractor: a record is appended for an author not
    processed yet, and nothing changes otherwise. *)
Lemma extract_message_run (st : Extraction) (msg : RawMessage)
    (log : list pystr) :
  cache_sound slack_users (user_cache st) →
  ∃ st' log',
    extract_message slack_users st msg log = (st', log') ∧
    cache_sound slack_users (user_cache st') ∧
    match (if authored msg then user msg else None) with
    | Some uid =>
        if bool_decide (uid ∈ processed_users st) then st' = st
        else participants st'
             = participants st ++ [participant slack_users uid] ∧
             processed_users st' = {[ uid ]} ∪ processed_users st
    | None => st' = st
    end.
Proof.
  intros Hc. unfold extract_message, authored.
  destruct (user msg) as [[|c uid]|] eqn:Hu; simpl;
    try (by exists st, log).
  destruct (truthy (bot_id msg)); simpl; [by exists st, log|].
  case_bool_decide as Hp; [by exists st, log|].
  unfold bind.
  destruct (cached_user_info_run
              {| real_name := Some (fallback_name (c :: uid));
                 profile := Some {| profile_email := None |} |}
              (user_cache st) (c :: uid) log Hc)
    as (cache' & log' & -> & Hc').
  unfold ret. eexists _, _. split; [reflexivity|]. simpl.
  split; [done|]. by rewrite extracted_participant.
Qed.

Lemma extract_loop_run (messages : list RawMessage) (st : Extraction)
    (log : list pystr) :
  cache_sound slack_users (user_cache st) →
  ∃ st' log',
    extract_loop slack_users st messages log = (st', log') ∧
    participants st'
    = participants st
      ++ (participant slack_users
            <$> first_appearances (processed_users st) (authors messages)).
Proof.
  revert st log. induction messages as [|msg messages IH]; intros st log Hc.
  { exists st, log. simpl. by rewrite app_nil_r. }
  cbn [extract_loop]. unfold bind at 1.
  destruct (extract_message_run st msg log Hc)
    as (st1 & log1 & -> & Hc1 & Hst1).
  destruct (IH st1 log1 Hc1) as (st2 & log2 & Hrun & Hst2).
  exists st2, log2. split; [exact Hrun|]. rewrite Hst2.
  unfold authors. simpl omap. fold (authors messages).
  destruct (if authored msg then user msg else None) as [uid|];
    [|by subst st1].
  simpl. destruct (bool_decide (uid ∈ processed_users st));
    [by subst st1|].
  destruct Hst1 as [-> ->]. simpl. by rewrite <- app_assoc.
Qed.

(** C8.  The extractor returns one record per author of an authored
    message: no two records share an id, the ids are those of the authors,
    and a record stands after the records of every author who appears in
    the input before the first appearance of its own id. *)
Theorem participants_first_appearance_order (messages : list RawMessage) :
  let found :=
    result (extract_participants_with_email slack_users messages) in
  let ids := user_id <$> found in
  found = participant slack_users <$> ids ∧
  NoDup ids ∧
  (∀ uid, uid ∈ ids ↔ uid ∈ authors messages) ∧
  (∀ l1 uid l2, ids = l1 ++ uid :: l2 →
     ∃ a b, authors messages = a ++ uid :: b ∧ (uid ∉ a) ∧
            ∀ y, y ∈ a → y ∈ l1).
Proof.
  intros found ids.
  assert (Hfound : found = participant slack_users
                             <$> first_appearances ∅ (authors messages)).
  { unfold found, result, extract_participants_with_email, bind.
    destruct (extract_loop_run messages
                {| participants := []; user_cache := ∅;
                   processed_users := ∅ |} [] cache_sound_empty)
      as (st' & log' & -> & Hst'). simpl in *. exact Hst'. }
  assert (Hids : ids = first_appearances ∅ (authors messages)).
  { unfold ids. rewrite Hfound, <- list_fmap_compose.
    apply list_fmap_id. }
  split; [by rewrite Hids|]. rewrite Hids.
  split; [apply first_appearances_NoDup|]. split.
  - intros uid. rewrite first_appearances_elem. split; [tauto|].
    intros Hin. split; [done|apply not_elem_of_empty].
  - intros l1 uid l2 H.
    destruct (first_appearances_order _ _ _ _ _ H)
      as (a & b & Ha & Hna & _ & Hy).
    exists a, b. split; [done|]. split; [done|].
    intros y Hin. destruct (Hy y Hin) as [Hs|Hl]; [|done].
    by apply elem_of_empty in Hs.
Qed.

(** X29.  A mention token whose id does not resolve is left unchanged by
    [process_mentions]: the token still stands in its result.  The
    substitution that follows in [format_messages_for_llm] deletes it: the
    text of the line is what is before the token and what is after it,
    each with its own tokens deleted, put together and trimmed. *)
Theorem unresolved_mention_kept_then_deleted (msg : RawMessage)
    (uid : pystr) :
  uid ∈ findall_mentions (default [] (text msg)) →
  resolved_name slack_users uid = None →
  ∃ a b,
    result (process_mentions slack_users (default [] (text msg)))
    = a ++ mention uid ++ b ∧
    result (line_text slack_users msg)
    = strip (sub_mentions a ++ sub_mentions b).
Proof.
  intros Hin Hnone.
  destruct (findall_from_occurs _ _ _ Hin) as (Hv & Hocc).
  destruct (resolve_mentions_keeps_token slack_users uid
              (findall_mentions (default [] (text msg))) Hv Hnone)
    with (text0 := default [] (text msg)) as (a & b & Hab); [|done|].
  { apply Forall_forall. intros v Hv'.
    by destruct (findall_from_occurs _ _ _ Hv'). }
  exists a, b. unfold result.
  rewrite process_mentions_run, line_text_run. simpl.
  rewrite Hab. split; [done|]. by rewrite sub_mentions_token.
Qed.

End WithClient.

(** C3, at an input where the code departs from it.  A message of Alice
    mentions an id the workspace does not know: the token is in the text,
    its id does not resolve, [process_mentions] leaves it where it is, as
    its comment says, and the transcript of the specification keeps it.
    The substitution that [format_messages_for_llm] applies next, meant
    for the mention of the bot, matches every token: the line of the
    transcript no longer holds this one. *)
Theorem unresolved_mention_missing_from_line :
  contains (mention (py "U9")) (default [] (text unknown_mention)) = true ∧
  findall_mentions (default [] (text unknown_mention)) = [py "U9"] ∧
  resolved_name directory (py "U9") = None ∧
  result (process_mentions directory (default [] (text unknown_mention)))
  = py "hi <@U9>" ∧
  spec_transcript directory (py "UBOT") [unknown_mention]
  = [py "Alice: hi <@U9>"] ∧
  result (format_messages_for_llm directory [unknown_mention])
  = py "Alice: hi" ∧
  contains (mention (py "U9"))
    (result (format_messages_for_llm directory [unknown_mention])) = false.
Proof. repeat split; by_evaluation. Qed.

(** C7, at an input where the code departs from it.  A message of Alice
    is a mention of an id the workspace does not know and nothing else,
    the bot having another id.  The message is authored and its text is
    not empty after the stripping of the specification, whose transcript
    holds a line for it.  In the code the substitution deletes the token,
    as it does every token, the text is empty and the message is skipped:
    the transcript holds no line. *)
Theorem mention_only_message_dropped :
  authored mention_only = true ∧
  spec_line_text directory (py "UBOT") mention_only = py "<@U9>" ∧
  spec_transcript directory (py "UBOT") [mention_only]
  = [py "Alice: <@U9>"] ∧
  result (line_text directory mention_only) = [] ∧
  result (formatted_messages directory [mention_only]) = [] ∧
  result (format_messages_for_llm directory [mention_only]) = [].
Proof. repeat split; by_evaluation. Qed.

Lemma unresolved_mention_kept_then_deleted_witness :
  py "U9" ∈ findall_mentions (default [] (text unknown_mention)) ∧
  resolved_name directory (py "U9") = None ∧
  ∃ a b,
    result (process_mentions directory (default [] (text unknown_mention)))
    = a ++ mention (py "U9") ++ b ∧
    result (line_text directory unknown_mention)
    = strip (sub_mentions a ++ sub_mentions b).
Proof.
  assert (H1 : py "U9" ∈ findall_mentions (default [] (text unknown_mention)))
    by (vm_compute; apply list_elem_of_here).
  assert (H2 : resolved_name directory (py "U9") = None) by reflexivity.
  split; [exact H1|]. split; [exact H2|].
  exact (unresolved_mention_kept_then_deleted directory unknown_mention
           (py "U9") H1 H2).
Defined.

(** C4, at an input where the code departs from it.  [process_mentions]
    has no cache: a message that mentions Bob twice makes it call
    [users_info] for Bob twice.  Over the request, the transcript builder
    and the extractor each look the author up, with a cache of their own,
    so Alice is looked up twice as well. *)
Theorem users_info_called_again :
  calls (process_mentions directory (py "<@U2> and <@U2>"))
  = [py "U2"; py "U2"] ∧
  request_calls directory [double_mention]
  = [py "U1"; py "U2"; py "U2"; py "U1"] ∧
  length (filter (λ uid, uid = py "U2")
            (request_calls directory [double_mention])) = 2%nat ∧
  length (filter (λ uid, uid = py "U1")
            (request_calls directory [double_mention])) = 2%nat.
Proof. repeat split; reflexivity. Qed.


Lemma participants_first_appearance_order_witness :
  user_id <$> result (extract_participants_with_email directory thread)
  = [] ++ py "U2" :: [py "U1"] ∧
  ∃ a b, authors thread = a ++ py "U2" :: b ∧ (py "U2" ∉ a) ∧
         ∀ y, y ∈ a → y ∈ [].
Proof.
  assert (H : user_id
                <$> result (extract_participants_with_email directory thread)
              = [] ++ py "U2" :: [py "U1"]) by reflexivity.
  split; [exact H|].
  exact (proj2 (proj2 (proj2
           (participants_first_appearance_order directory thread)))
           [] (py "U2") [py "U1"] H).
Defined.

End SlackFacts.

(** * Statements about the mention handler *)

Module PipelineFacts.
Import LLM Slack Notion Pipeline Samples.

Section Handler.

Context {Props : Type}.
Variable lower : pystr → pystr.
Variable sdk : Sdk.
Variable config : NotionConfig.
Variable world : World Props.

(** Every request to Notion fails: an exception of the transport, or an
    answer whose status is not 200. *)
Hypothesis post_fails :
  ∀ page, requests_post world page = TransportError ∨
          ∃ code body, requests_post world page = Response code body
                       ∧ code ≠ 200.

(** After a failed request [save_summary_to_notion] returns [None], or
    raises what the assembly of the properties raised. *)
Lemma save_summary_to_notion_fails
    (summary channel_name thread_url thread_ts keywords : pystr)
    (people : list Participant) :
  save_summary_to_notion config world summary channel_name thread_url
    thread_ts keywords people = Returns None ∨
  ∃ e, save_summary_to_notion config world summary channel_name thread_url
         thread_ts keywords people = Raises e.
Proof using post_fails.
  unfold save_summary_to_notion.
  destruct (negb _ || negb _); [by left|].
  destruct (build_properties world _ _ _ _ _ _) as [props|e]; [|by eauto].
  match goal with |- context [requests_post world ?page] =>
    destruct (post_fails page) as [->|(code & body & -> & Hcode)] end.
  - by left.
  - apply N.eqb_neq in Hcode. rewrite Hcode. by left.
Qed.

Lemma notion_url_fails (save_to_notion : bool) (llm : LLMService)
    (summary channel_name thread_url thread_ts : pystr)
    (people : list Participant) :
  notion_url config world save_to_notion llm summary channel_name thread_url
    thread_ts people = None.
Proof using post_fails.
  unfold notion_url.
  destruct (_ && _ && _); [|done].
  destruct (extract_keywords world llm summary) as [keywords|e]; [|done].
  destruct (save_summary_to_notion_fails summary channel_name thread_url
              thread_ts keywords people) as [->|[e ->]]; done.
Qed.

(** C9.  In a thread, once the first message was posted, the messages
    were fetched and the summary was generated, a request to Notion that
    fails does not stop the event: the status message is edited to the
    summary followed by the line that names the provider, with no link to a
    saved page; and if that edit goes through, nothing else is sent and no
    exception leaves the handler. *)
Theorem notion_failure_still_delivers (llm llm1 : LLMService)
    (event : Event) (p : pystr) (messages : list RawMessage)
    (summary ts : pystr) :
  truthy (event_thread_ts event) = true →
  select_provider lower sdk llm (event_text event) = (llm1, Returns p) →
  say world (initial_message (save_requested lower (event_text event)))
    (event_thread_ts event) = Returns ts →
  conversations_replies world = Returns messages →
  generate_summary world llm1
    (result (format_messages_for_llm (slack_users world) messages))
  = Returns summary →
  let handled := handle_app_mentions lower sdk config world llm event in
  let answer := summary ++ generated_by llm1 in
  ∃ first rest,
    sent handled
    = Say first (event_thread_ts event)
      :: ChatUpdate (event_channel event) ts answer :: rest ∧
    (chat_update world answer = Returns () →
     rest = [] ∧ escaped handled = None).
Proof using post_fails.
  intros Hthread Hselect Hsay Hreplies Hsummary handled answer.
  subst handled answer. unfold handle_app_mentions.
  rewrite Hselect, Hthread.
  destruct (event_thread_ts event) as [[|c thread_ts]|] eqn:Hts;
    try discriminate. cbn [truthy andb default from_option id].
  rewrite Hsay.
  unfold response_text. rewrite Hreplies, Hsummary, notion_url_fails.
  simpl.
  destruct (chat_update world (summary ++ generated_by llm1)) as [[]|e].
  - eexists _, []. split; [reflexivity|]. done.
  - eexists _, [_]. split; [reflexivity|]. discriminate.
Qed.

End Handler.

Lemma notion_failure_still_delivers_witness :
  (∀ page, requests_post notion_down page = TransportError ∨
           ∃ code body, requests_post notion_down page = Response code body
                        ∧ code ≠ 200) ∧
  truthy (event_thread_ts notion_event) = true ∧
  sent (handle_app_mentions ascii_lower sdk notion_config notion_down
          claude_service notion_event)
  = [Say (initial_message true) (event_thread_ts notion_event);
     ChatUpdate (py "C42") (py "1700000301.000300")
       (py "## Summary" ++ generated_by claude_service)].
Proof.
  assert (Hpost : ∀ page, requests_post notion_down page = TransportError ∨
           ∃ code body, requests_post notion_down page = Response code body
                        ∧ code ≠ 200).
  { intros page. right. exists 500, None. split; [reflexivity|].
    discriminate. }
  assert (H1 : truthy (event_thread_ts notion_event) = true)
    by by_evaluation.
  assert (H2 : select_provider ascii_lower sdk claude_service
                 (event_text notion_event) = (claude_service, Returns claude))
    by by_evaluation.
  assert (H3 : say notion_down
                 (initial_message
                    (save_requested ascii_lower (event_text notion_event)))
                 (event_thread_ts notion_event)
               = Returns (py "1700000301.000300")) by reflexivity.
  split; [exact Hpost|]. split; [exact H1|].
  destruct (notion_failure_still_delivers ascii_lower sdk notion_config
              notion_down Hpost claude_service claude_service notion_event
              claude thread (py "## Summary") (py "1700000301.000300")
              H1 H2 H3 eq_refl eq_refl)
    as (first & rest & Hsent & Hrest).
  destruct (Hrest eq_refl) as [-> _].
  rewrite Hsent. f_equal.
  assert (H : hd_error (sent (handle_app_mentions ascii_lower sdk
                 notion_config notion_down claude_service notion_event))
              = Some (Say (initial_message true)
                        (event_thread_ts notion_event))) by by_evaluation.
  rewrite Hsent in H. simpl in H. by injection H as ->.
Defined.

End PipelineFacts.

(** * Further statements: Python strings *)

Module PyStrFacts.

Lemma lstrip_by_head (p : N → bool) (s : pystr) :
  match lstrip_by p s with
  | [] => True
  | c :: _ => p c = false
  end.
Proof.
  induction s as [|c s IH]; simpl; [done|].
  destruct (p c) eqn:Hc; [exact IH|exact Hc].
Qed.

Lemma lstrip_by_idem (p : N → bool) (s : pystr) :
  lstrip_by p (lstrip_by p s) = lstrip_by p s.
Proof.
  pose proof (lstrip_by_head p s) as H.
  destruct (lstrip_by p s) as [|c t]; [done|]. simpl. by rewrite H.
Qed.

Lemma rstrip_by_idem (p : N → bool) (s : pystr) :
  rstrip_by p (rstrip_by p s) = rstrip_by p s.
Proof. unfold rstrip_by. by rewrite rev_involutive, lstrip_by_idem. Qed.

(** Stripping twice is stripping once. *)
Lemma strip_by_idem (p : N → bool) (s : pystr) :
  strip_by p (strip_by p s) = strip_by p s.
Proof.
  unfold strip_by.
  pose proof (lstrip_by_head p s) as H.
  destruct (lstrip_by p s) as [|c t]; [reflexivity|].
  rewrite NotionFacts.rstrip_by_cons by done. simpl. rewrite H.
  rewrite NotionFacts.rstrip_by_cons by done.
  by rewrite rstrip_by_idem.
Qed.

Lemma strip_idem (s : pystr) : strip (strip s) = strip s.
Proof. apply strip_by_idem. Qed.

(** Stripping after a left strip is stripping. *)
Lemma strip_lstrip (s : pystr) : strip (lstrip_by isspace s) = strip s.
Proof. unfold strip, strip_by. by rewrite lstrip_by_idem. Qed.

Lemma split_nonempty (sep : N) (s : pystr) : split sep s ≠ [].
Proof.
  destruct s as [|c s]; simpl; [done|].
  case_bool_decide; [done|]. by destruct (split sep s).
Qed.

Lemma join_cons (sep piece : pystr) (rest : list pystr) :
  rest ≠ [] → join sep (piece :: rest) = piece ++ sep ++ join sep rest.
Proof. by destruct rest. Qed.

(** Joining the pieces of a split with the separator gives the string
    back. *)
Lemma join_split (sep : N) (s : pystr) : join [sep] (split sep s) = s.
Proof.
  induction s as [|c s IH]; simpl; [done|].
  case_bool_decide as Hc.
  - subst c. rewrite join_cons by apply split_nonempty. by rewrite IH.
  - pose proof (split_nonempty sep s) as Hne.
    destruct (split sep s) as [|piece [|piece' pieces]]; [done| |];
      rewrite <- IH; reflexivity.
Qed.

(** No piece of a split holds the separator. *)
Lemma split_no_sep (sep : N) (s : pystr) :
  Forall (λ piece, sep ∉ piece) (split sep s).
Proof.
  induction s as [|c s IH]; simpl.
  { constructor; [apply not_elem_of_nil|constructor]. }
  case_bool_decide as Hc.
  - constructor; [apply not_elem_of_nil|exact IH].
  - destruct (split sep s) as [|piece pieces]; simpl.
    + constructor; [|constructor].
      apply not_elem_of_cons. split; [done|apply not_elem_of_nil].
    + inversion IH as [|? ? Hp Hps]; subst. constructor; [|done].
      apply not_elem_of_cons. split; [done|exact Hp].
Qed.

Lemma split_piece (sep : N) (piece : pystr) :
  sep ∉ piece → split sep piece = [piece].
Proof.
  induction piece as [|c piece IH]; intros Hp; simpl; [done|].
  apply not_elem_of_cons in Hp as [Hc Hp].
  rewrite bool_decide_eq_false_2 by done. by rewrite IH.
Qed.

Lemma split_app (sep : N) (piece rest : pystr) :
  sep ∉ piece →
  split sep (piece ++ sep :: rest) = piece :: split sep rest.
Proof.
  induction piece as [|c piece IH]; intros Hp; simpl.
  { by rewrite bool_decide_eq_true_2. }
  apply not_elem_of_cons in Hp as [Hc Hp].
  rewrite bool_decide_eq_false_2 by done. by rewrite IH.
Qed.

(** Splitting a join of pieces that do not hold the separator gives the
    pieces back. *)
Lemma split_join (sep : N) (pieces : list pystr) :
  pieces ≠ [] → Forall (λ piece, sep ∉ piece) pieces →
  split sep (join [sep] pieces) = pieces.
Proof.
  intros Hne Hall. induction Hall as [|piece pieces Hp Hall IH]; [done|].
  destruct pieces as [|piece' pieces].
  - simpl. by apply split_piece.
  - rewrite join_cons by done. simpl app.
    rewrite split_app by done. f_equal. by apply IH.
Qed.

End PyStrFacts.

(** * Further statements: the block serializer *)

Module NotionExtra.
Import Notion NotionSpec NotionFacts PyStrFacts.

(** A heading line is neither blank nor a bullet line; a bullet line is
    not blank. *)
Lemma heading_not_blank (line : pystr) :
  is_heading line = true → is_blank line = false.
Proof.
  unfold is_heading, is_blank, heading_marker.
  destruct line as [|a line]; [discriminate|]. simpl.
  case_bool_decide as Ha; [subst a|discriminate]. intros _.
  unfold strip. rewrite strip_by_cons by reflexivity. reflexivity.
Qed.

Lemma bullet_not_blank (line : pystr) :
  is_bullet line = true → is_blank line = false.
Proof.
  unfold is_bullet, is_blank. by destruct (strip line).
Qed.

(** What the serializer has emitted or holds pending grows by the block
    of the line, and by nothing else. *)
Lemma convert_line_step (st : Serializer) (line : pystr)
    (lines : list pystr) :
  finish (convert_line st line)
  ++ serialize
       (negb (bool_decide (bullet_points (convert_line st line) = []))) lines
  = finish st
    ++ serialize (negb (bool_decide (bullet_points st = []))) (line :: lines).
Proof.
  unfold convert_line. cbn [serialize].
  unfold is_heading, is_bullet, is_blank, heading_text.
  destruct (startswith heading_marker line).
  { unfold finish. cbn [blocks bullet_points flush app negb].
    rewrite bool_decide_eq_true_2 by done. cbn [negb].
    by rewrite !app_nil_r, <- !app_assoc. }
  destruct (startswith bullet_marker (strip line)).
  { unfold finish. cbn [blocks bullet_points].
    rewrite (bool_decide_eq_false_2 (_ ++ [_] = []))
      by (by destruct (bullet_points st)).
    rewrite !flush_bullets, fmap_app, <- !app_assoc. done. }
  destruct (eqb (strip line) []).
  { unfold finish. cbn [blocks bullet_points flush app negb].
    rewrite bool_decide_eq_true_2 by done. cbn [negb].
    by rewrite !app_nil_r, <- !app_assoc. }
  destruct (startswith dash (strip line)); cbn [negb andb]; [reflexivity|].
  destruct (decide (bullet_points st = [])) as [Hacc|Hacc].
  - rewrite !(bool_decide_eq_true_2 (bullet_points st = [])) by done.
    unfold finish. cbn [blocks bullet_points negb]. rewrite Hacc. simpl.
    by rewrite !app_nil_r, <- !app_assoc.
  - rewrite !(bool_decide_eq_false_2 (bullet_points st = [])) by done.
    reflexivity.
Qed.

Lemma finish_convert_lines (lines : list pystr) (st : Serializer) :
  finish (convert_lines st lines)
  = finish st
    ++ serialize (negb (bool_decide (bullet_points st = []))) lines.
Proof.
  revert st. induction lines as [|line lines IH]; intros st.
  { simpl. by rewrite app_nil_r. }
  change (convert_lines st (line :: lines))
    with (convert_lines (convert_line st line) lines).
  rewrite IH. apply convert_line_step.
Qed.

Lemma convert_summary_serialize (summary : pystr) :
  convert_summary_to_notion_blocks summary
  = serialize false (split 10 summary).
Proof.
  unfold convert_summary_to_notion_blocks.
  by rewrite finish_convert_lines.
Qed.

(** X7.  The serializer is the two-state machine of its lines: the blocks come
    out in the order of the lines, a heading line, a bullet line and a
    blank line each giving their block, and any other line giving a
    paragraph when no bullet run is open and it does not begin with a
    dash.  The bullets held back until the next flush are not
    observable. *)
Theorem convert_summary_is_serialize (summary : pystr) :
  convert_summary_to_notion_blocks summary
  = serialize false (split 10 summary).
Proof. apply convert_summary_serialize. Qed.

Lemma bullets_of_serialize (acc : bool) (lines : list pystr) :
  bullets_of (serialize acc lines)
  = bullet_text <$> filter (λ line, is_bullet line = true) lines.
Proof.
  revert acc. induction lines as [|line lines IH]; intros acc; [done|].
  simpl serialize. rewrite filter_cons.
  destruct (is_heading line) eqn:Hh.
  { assert (is_bullet line = false) as Hb
      by (by apply heading_not_bullet).
    rewrite decide_False by (rewrite Hb; done). simpl. apply IH. }
  destruct (is_bullet line) eqn:Hb.
  { rewrite decide_True by done. simpl. f_equal. apply IH. }
  rewrite decide_False by done.
  destruct (is_blank line); [simpl; apply IH|].
  destruct (negb _ && negb acc); simpl; apply IH.
Qed.

Lemma headings_of_serialize (acc : bool) (lines : list pystr) :
  headings_of (serialize acc lines)
  = heading_text <$> filter (λ line, is_heading line = true) lines.
Proof.
  revert acc. induction lines as [|line lines IH]; intros acc; [done|].
  simpl serialize. rewrite filter_cons.
  destruct (is_heading line) eqn:Hh.
  { rewrite decide_True by done. simpl. f_equal. apply IH. }
  rewrite decide_False by done.
  destruct (is_bullet line); [simpl; apply IH|].
  destruct (is_blank line); [simpl; apply IH|].
  destruct (negb _ && negb acc); simpl; apply IH.
Qed.

(** X8.  No bullet line is lost: the bullet blocks are the texts of the
    bullet lines of the summary, one for one and in their order. *)
Theorem bullets_preserved (summary : pystr) :
  bullets_of (convert_summary_to_notion_blocks summary)
  = bullet_text
      <$> filter (λ line, is_bullet line = true) (split 10 summary).
Proof. rewrite convert_summary_serialize. apply bullets_of_serialize. Qed.

(** X9.  No heading line is lost: the heading blocks are the texts of the
    lines that start with the heading marker, one for one and in order. *)
Theorem headings_preserved (summary : pystr) :
  headings_of (convert_summary_to_notion_blocks summary)
  = heading_text
      <$> filter (λ line, is_heading line = true) (split 10 summary).
Proof. rewrite convert_summary_serialize. apply headings_of_serialize. Qed.

Lemma serialize_length (acc : bool) (lines : list pystr) :
  (length (serialize acc lines) ≤ length lines)%nat.
Proof.
  revert acc. induction lines as [|line lines IH]; intros acc; [done|].
  simpl.
  repeat match goal with
         | |- context [if ?b then _ else _] => destruct b
         end; simpl; try apply le_n_S; try apply le_S; apply IH.
Qed.

(** X10.  A line gives at most one block: the serializer never returns more
    blocks than the summary has lines. *)
Theorem blocks_at_most_lines (summary : pystr) :
  (length (convert_summary_to_notion_blocks summary)
   ≤ length (split 10 summary))%nat.
Proof. rewrite convert_summary_serialize. apply serialize_length. Qed.

Lemma serialize_trimmed (acc : bool) (lines : list pystr) :
  Forall (λ b, strip (content b) = content b) (serialize acc lines).
Proof.
  revert acc. induction lines as [|line lines IH]; intros acc;
    [constructor|].
  simpl.
  repeat match goal with
         | |- context [if ?b then _ else _] => destruct b
         end; try constructor; try apply IH; simpl;
    first [apply strip_idem | reflexivity].
Qed.

(** X11.  The text of every block is trimmed: it has no white space at either
    end. *)
Theorem blocks_trimmed (summary : pystr) :
  Forall (λ b, strip (content b) = content b)
    (convert_summary_to_notion_blocks summary).
Proof. rewrite convert_summary_serialize. apply serialize_trimmed. Qed.

Lemma empty_paragraphs_of_serialize (acc : bool) (lines : list pystr) :
  length (filter (λ c, c = []) (paragraphs_of (serialize acc lines)))
  = length (filter (λ line, is_blank line = true) lines).
Proof.
  revert acc. induction lines as [|line lines IH]; intros acc; [done|].
  simpl serialize. rewrite (filter_cons _ line).
  destruct (is_heading line) eqn:Hh.
  { rewrite (heading_not_blank _ Hh), decide_False by done. apply IH. }
  destruct (is_bullet line) eqn:Hb.
  { rewrite (bullet_not_blank _ Hb), decide_False by done. apply IH. }
  destruct (is_blank line) eqn:Hk.
  { rewrite decide_True by done. simpl. f_equal. apply IH. }
  rewrite decide_False by done.
  destruct (negb _ && negb acc); [|apply IH].
  simpl. rewrite filter_cons, decide_False; [apply IH|].
  intros H. unfold is_blank, eqb in Hk.
  by rewrite H, bool_decide_eq_true_2 in Hk.
Qed.

(** X12.  Every blank line gives an empty paragraph, and an empty paragraph
    comes from a blank line only. *)
Theorem empty_paragraphs_are_blank_lines (summary : pystr) :
  length (filter (λ c, c = [])
            (paragraphs_of (convert_summary_to_notion_blocks summary)))
  = length (filter (λ line, is_blank line = true) (split 10 summary)).
Proof.
  rewrite convert_summary_serialize. apply empty_paragraphs_of_serialize.
Qed.

(** X13.  The lines the serializer reads are the summary: there is at least
    one, none holds a line feed, and joined by line feeds they give the
    summary back. *)
Theorem summary_lines_round_trip (summary : pystr) :
  split 10 summary ≠ [] ∧
  Forall (λ line, 10 ∉ line) (split 10 summary) ∧
  join [10] (split 10 summary) = summary.
Proof.
  split; [apply split_nonempty|].
  split; [apply split_no_sep|apply join_split].
Qed.

End NotionExtra.

(** * Further statements: the backend switch and the generation calls *)

Module LLMExtra.
Import LLM Generation LLMFacts Samples MoreSamples.

Lemma truthy_Some (o : option pystr) :
  truthy o = true ↔ ∃ c k, o = Some (c :: k).
Proof.
  destruct o as [[|c k]|]; simpl; split; try done; eauto;
    by intros (? & ? & ?).
Qed.

(** What [_initialize_client] does when it returns: it constructs the
    client of the provider, and only that. *)
Lemma initialize_client_Returns (sdk : Sdk) (s s' : LLMService) (u : unit) :
  _initialize_client sdk s = (s', Returns u) →
  (provider s = claude ∧
   ∃ c k client, anthropic_api_key s = Some (c :: k) ∧
                 new_Anthropic sdk (c :: k) = Returns client ∧
                 s' = set_claude_client client s) ∨
  (provider s = azure_openai ∧
   ∃ c k d e client,
     azure_openai_api_key s = Some (c :: k) ∧
     azure_openai_endpoint s = Some (d :: e) ∧
     new_AzureOpenAI sdk (c :: k) (azure_openai_api_version s) (d :: e)
     = Returns client ∧
     s' = set_azure_openai_client client s).
Proof.
  unfold _initialize_client.
  destruct (eqb (provider s) claude) eqn:Hc.
  { apply eqb_eq in Hc.
    destruct (anthropic_api_key s) as [[|c k]|]; try discriminate.
    destruct (new_Anthropic sdk (c :: k)) as [client|detail] eqn:Hn;
      [|discriminate].
    intros [= <-]. left. split; [done|]. by exists c, k, client. }
  destruct (eqb (provider s) azure_openai) eqn:Ha; [|discriminate].
  apply eqb_eq in Ha.
  destruct (azure_openai_api_key s) as [[|c k]|]; try discriminate.
  destruct (azure_openai_endpoint s) as [[|d e]|]; try discriminate.
  destruct (new_AzureOpenAI sdk _ _ _) as [client|detail] eqn:Hn;
    [|discriminate].
  intros [= <-]. right. split; [done|]. by exists c, k, d, e, client.
Qed.

(** [_initialize_client] raises before it assigns anything. *)
Lemma initialize_client_Raises (sdk : Sdk) (s s' : LLMService)
    (e : Raised) :
  _initialize_client sdk s = (s', Raises e) → s' = s.
Proof.
  unfold _initialize_client.
  destruct (eqb (provider s) claude).
  { destruct (anthropic_api_key s) as [[|c k]|]; try by intros [= <-].
    destruct (new_Anthropic sdk (c :: k)); [discriminate|by intros [= <-]]. }
  destruct (eqb (provider s) azure_openai); [|by intros [= <-]].
  destruct (azure_openai_api_key s) as [[|c k]|]; try by intros [= <-].
  destruct (azure_openai_endpoint s) as [[|d e']|]; try by intros [= <-].
  destruct (new_AzureOpenAI sdk _ _ _); [discriminate|by intros [= <-]].
Qed.

Lemma claude_not_azure : claude ≠ azure_openai.
Proof. discriminate. Qed.

Section Switch.

Variable lower : pystr → pystr.
Variable sdk : Sdk.

(** X1.  A service that [__init__] returns is ready: its provider is the
    lower-cased name, which is a supported one, the client of that
    provider is there, it is the only client constructed, and the client
    of the other provider is [None]. *)
Theorem init_returns_ready (environ : Environ) (name : pystr)
    (s : LLMService) :
  __init__ lower sdk environ name = Returns s →
  provider s = lower name ∧
  (provider s = claude ∨ provider s = azure_openai) ∧
  active_client_usable s = true ∧
  client_inits s = 1%nat ∧
  (provider s = claude → azure_openai_client s = None) ∧
  (provider s = azure_openai → claude_client s = None).
Proof.
  unfold __init__.
  destruct (_initialize_client _) as [s' [[]|e]] eqn:E; [|discriminate].
  intros [= <-].
  apply initialize_client_Returns in E
    as [(Hp & c & k & client & _ & _ & ->)
       |(Hp & c & k & d & e & client & _ & _ & _ & ->)];
    unfold active_client_usable; simpl in *; rewrite Hp.
  - repeat split; auto. intros H. by destruct claude_not_azure.
  - repeat split; auto. intros H. symmetry in H. by destruct claude_not_azure.
Qed.

(** X2.  [__init__] raises in five cases only: a name that is not supported,
    the Claude provider without its key, the Azure provider without its
    key or its endpoint, and, with the credentials there, the constructor
    of the provider's client raising, whose exception is the one raised. *)
Theorem init_raises_iff (environ : Environ) (name : pystr) (e : Raised) :
  __init__ lower sdk environ name = Raises e ↔
  (e = value_error UnsupportedProvider ∧
   lower name ≠ claude ∧ lower name ≠ azure_openai) ∨
  (e = value_error MissingAnthropicKey ∧ lower name = claude ∧
   truthy (ANTHROPIC_API_KEY environ) = false) ∨
  (e = value_error IncompleteAzureConfig ∧ lower name = azure_openai ∧
   (truthy (AZURE_OPENAI_API_KEY environ) = false ∨
    truthy (AZURE_OPENAI_ENDPOINT environ) = false)) ∨
  (lower name = claude ∧
   ∃ c k detail,
     ANTHROPIC_API_KEY environ = Some (c :: k) ∧
     new_Anthropic sdk (c :: k) = Raises detail ∧
     e = constructor_error detail) ∨
  (lower name = azure_openai ∧
   ∃ c k d t detail,
     AZURE_OPENAI_API_KEY environ = Some (c :: k) ∧
     AZURE_OPENAI_ENDPOINT environ = Some (d :: t) ∧
     new_AzureOpenAI sdk (c :: k)
       (default (py "2023-12-01-preview") (AZURE_OPENAI_API_VERSION environ))
       (d :: t) = Raises detail ∧
     e = constructor_error detail).
Proof.
  unfold __init__, _initialize_client. simpl.
  destruct (eqb (lower name) claude) eqn:Hc.
  { apply eqb_eq in Hc.
    assert (Hna : lower name ≠ azure_openai).
    { rewrite Hc. exact claude_not_azure. }
    destruct (ANTHROPIC_API_KEY environ) as [[|c k]|] eqn:Hk; simpl.
    - split; [intros [= <-]; auto|].
      intros [(_ & H & _)|[(-> & _)|[(_ & H & _)|[(_ & ? & ? & ? & ? & _)|(H & _)]]]];
        done.
    - destruct (new_Anthropic sdk (c :: k)) as [client|detail] eqn:Hn; simpl.
      + split; [discriminate|].
        intros [(_ & H & _)|[(_ & _ & H)|[(_ & H & _)|[(_ & ? & ? & ? & H & H' & _)|(H & _)]]]];
          try done.
        injection H as <- <-. rewrite Hn in H'. discriminate.
      + split.
        * intros [= <-]. do 3 right. left. split; [done|].
          by exists c, k, detail.
        * intros [(_ & H & _)|[(_ & _ & H)|[(_ & H & _)|[(_ & ? & ? & ? & H & H' & ->)|(H & _)]]]];
            try done.
          injection H as <- <-. rewrite Hn in H'. by injection H' as <-.
    - split; [intros [= <-]; auto|].
      intros [(_ & H & _)|[(-> & _)|[(_ & H & _)|[(_ & ? & ? & ? & ? & _)|(H & _)]]]];
        done. }
  apply eqb_neq in Hc.
  destruct (eqb (lower name) azure_openai) eqn:Ha.
  { apply eqb_eq in Ha.
    destruct (truthy (AZURE_OPENAI_API_KEY environ)
              && truthy (AZURE_OPENAI_ENDPOINT environ)) eqn:Hboth.
    - apply andb_true_iff in Hboth as [Hk He].
      apply truthy_Some in Hk as (c & k & Hk).
      apply truthy_Some in He as (d & t & He).
      rewrite Hk, He. simpl.
      destruct (new_AzureOpenAI sdk _ _ _) as [client|detail] eqn:Hn; simpl.
      + split; [discriminate|].
        intros [(_ & _ & H)|[(_ & H & _)|[(_ & _ & [H|H])|[(H & _)|(_ & ? & ? & ? & ? & ? & H1 & H2 & H' & _)]]]];
          try done.
        injection H1 as <- <-. injection H2 as <- <-.
        rewrite Hn in H'. discriminate.
      + split.
        * intros [= <-]. do 4 right. split; [done|].
          by exists c, k, d, t, detail.
        * intros [(_ & _ & H)|[(_ & H & _)|[(_ & _ & [H|H])|[(H & _)|(_ & ? & ? & ? & ? & ? & H1 & H2 & H' & ->)]]]];
            try done.
          injection H1 as <- <-. injection H2 as <- <-.
          rewrite Hn in H'. by injection H' as <-.
    - assert (Hmiss : truthy (AZURE_OPENAI_API_KEY environ) = false ∨
                      truthy (AZURE_OPENAI_ENDPOINT environ) = false).
      { by apply andb_false_iff. }
      assert (Hraise :
        (match AZURE_OPENAI_API_KEY environ, AZURE_OPENAI_ENDPOINT environ with
         | Some (_ :: _), Some (_ :: _) => false
         | _, _ => true
         end) = true).
      { destruct (AZURE_OPENAI_API_KEY environ) as [[|? ?]|];
          destruct (AZURE_OPENAI_ENDPOINT environ) as [[|? ?]|];
          simpl in *; try done. }
      split.
      + intros H. do 2 right. left.
        destruct (AZURE_OPENAI_API_KEY environ) as [[|? ?]|];
          destruct (AZURE_OPENAI_ENDPOINT environ) as [[|? ?]|];
          simpl in *; try discriminate; injection H as <-; done.
      + intros [(_ & _ & H)|[(_ & H & _)|[(-> & _)|[(H & _)|(_ & ? & ? & ? & ? & ? & H1 & H2 & _)]]]];
          try done.
        * destruct (AZURE_OPENAI_API_KEY environ) as [[|? ?]|];
            destruct (AZURE_OPENAI_ENDPOINT environ) as [[|? ?]|];
            simpl in *; done.
        * rewrite H1, H2 in Hboth. discriminate. }
  apply eqb_neq in Ha. split.
  - intros [= <-]. by left.
  - intros [(-> & _)|[(_ & H & _)|[(_ & H & _)|[(H & _)|(H & _)]]]]; done.
Qed.

(** X3.  A switch that returns leaves a usable service usable, on the
    requested provider. *)
Theorem switch_returns_usable (s s' : LLMService) (name p : pystr) :
  active_client_usable s = true →
  switch_provider lower sdk s name = (s', Returns p) →
  active_client_usable s' = true ∧ provider s' = lower name ∧ p = lower name.
Proof.
  intros Hu. unfold switch_provider.
  destruct (negb _); [discriminate|].
  destruct (eqb (lower name) (provider s)) eqn:Hsame; simpl.
  { apply eqb_eq in Hsame. intros [= <- <-]. by rewrite Hsame. }
  destruct (_initialize_client _) as [s2 [[]|e]] eqn:E; [|discriminate].
  intros [= <- <-].
  apply initialize_client_Returns in E
    as [(Hp & c & k & client & _ & _ & ->)
       |(Hp & c & k & d & e & client & _ & _ & _ & ->)];
    simpl in *; unfold active_client_usable; simpl; rewrite Hp; done.
Qed.

(** X4.  A switch to another provider that returns has constructed one client,
    even when a client of that provider was there from an earlier switch,
    and has kept the client of the provider it leaves. *)
Theorem switch_builds_new_client (s s' : LLMService) (name p : pystr) :
  lower name ≠ provider s →
  switch_provider lower sdk s name = (s', Returns p) →
  client_inits s' = S (client_inits s) ∧
  (lower name = claude → azure_openai_client s' = azure_openai_client s) ∧
  (lower name = azure_openai → claude_client s' = claude_client s).
Proof.
  intros Hne. unfold switch_provider.
  destruct (negb _); [discriminate|].
  apply eqb_neq in Hne. rewrite Hne. simpl.
  destruct (_initialize_client _) as [s2 [[]|e]] eqn:E; [|discriminate].
  intros [= <- <-].
  apply initialize_client_Returns in E
    as [(Hp & c & k & client & _ & _ & ->)
       |(Hp & c & k & d & e & client & _ & _ & _ & ->)];
    simpl in *; rewrite Hp; repeat split; auto; intros H.
  - by destruct claude_not_azure.
  - symmetry in H. by destruct claude_not_azure.
Qed.

(** What a program can reach keeps the credentials read at construction,
    and holds a client only for a provider whose credentials are set. *)
Lemma reachable_clients (s : LLMService) :
  reachable lower sdk s →
  (is_Some (claude_client s) → truthy (anthropic_api_key s) = true) ∧
  (is_Some (azure_openai_client s) →
   truthy (azure_openai_api_key s) = true ∧
   truthy (azure_openai_endpoint s) = true).
Proof.
  induction 1 as [environ name s Hinit | s name Hs IH].
  - unfold __init__ in Hinit.
    destruct (_initialize_client _) as [s' [[]|e]] eqn:E; [|discriminate].
    injection Hinit as <-.
    apply initialize_client_Returns in E
      as [(Hp & c & k & client & Hk & _ & ->)
         |(Hp & c & k & d & e & client & Hk & He & _ & ->)];
      simpl in *; split; intros [x Hx]; try discriminate.
    + by rewrite Hk.
    + by rewrite Hk, He.
  - unfold switch_provider.
    destruct (negb _); [exact IH|].
    destruct (negb (eqb (lower name) (provider s))); [|exact IH].
    destruct (_initialize_client _) as [s2 [[]|e]] eqn:E; simpl.
    + apply initialize_client_Returns in E
        as [(Hp & c & k & client & Hk & _ & ->)
         |(Hp & c & k & d & e & client & Hk & He & _ & ->)];
        simpl in *; split; intros Hx; try (by apply IH).
      * by rewrite Hk.
      * by rewrite Hk, He.
    + apply initialize_client_Raises in E as ->. exact IH.
Qed.

Section WithBackends.

Variable api : Backends.

(** X5.  On a usable service the generation calls go to the client of the
    active provider: they never raise for want of a client, and an error
    of the API call is raised to the caller. *)
Theorem generation_reaches_backend (s : LLMService) (content : pystr) :
  active_client_usable s = true →
  generate_summary api s content ≠ Raises AttributeError ∧
  extract_keywords api s content ≠ Raises AttributeError ∧
  (provider s = claude →
   ∃ client, claude_client s = Some client ∧
     ∀ detail,
       messages_create api client (py "claude-3-haiku-20240307")
         summary_prompt content 1000 = Raises detail →
       generate_summary api s content = Raises (ApiError detail)).
Proof.
  unfold active_client_usable, generate_summary, extract_keywords,
    _generate_with_claude, _generate_with_azure_openai.
  destruct (eqb (provider s) claude) eqn:Hc; intros Hu;
    apply bool_decide_eq_true in Hu as [client Hclient]; rewrite Hclient.
  - split; [by destruct (messages_create _ _ _ _ _ _)|].
    split; [by destruct (messages_create _ _ _ _ _ _)|].
    intros _. exists client. split; [done|]. by intros detail ->.
  - split; [by destruct (chat_completions_create _ _ _ _ _ _)|].
    split; [by destruct (chat_completions_create _ _ _ _ _ _)|].
    intros Hp. apply eqb_neq in Hc. done.
Qed.

(** X6.  After a switch that raises for missing credentials, the service is
    left on the requested provider without a client: every generation call
    raises [AttributeError], and asking for the same switch again returns
    as if it had succeeded. *)
Theorem failed_switch_breaks_generation (s s' : LLMService)
    (name : pystr) (e : ValueError) :
  reachable lower sdk s →
  switch_provider lower sdk s name = (s', Raises (value_error e)) →
  e ≠ UnsupportedProvider →
  provider s' = lower name ∧
  (∀ content, generate_summary api s' content = Raises AttributeError) ∧
  (∀ content, extract_keywords api s' content = Raises AttributeError) ∧
  switch_provider lower sdk s' name = (s', Returns (lower name)).
Proof.
  intros Hr Hsw He.
  destruct (reachable_clients s Hr) as [Hcl Haz].
  unfold switch_provider in Hsw.
  destruct (eqb (lower name) claude || eqb (lower name) azure_openai)
    eqn:Hin; simpl in Hsw; [|by injection Hsw as _ <-].
  destruct (eqb (lower name) (provider s)) eqn:Hsame; simpl in Hsw;
    [discriminate|].
  destruct (_initialize_client _) as [s2 [[]|e2]] eqn:E; [discriminate|].
  injection Hsw as <- ->.
  pose proof (initialize_client_Raises _ _ _ _ E) as ->.
  assert (Hself : switch_provider lower sdk (set_provider (lower name) s) name
                  = (set_provider (lower name) s, Returns (lower name))).
  { unfold switch_provider. rewrite Hin. simpl.
    unfold eqb. by rewrite bool_decide_eq_true_2. }
  split; [done|].
  unfold _initialize_client in E. simpl in E.
  unfold generate_summary, extract_keywords, _generate_with_claude,
    _generate_with_azure_openai. simpl.
  destruct (eqb (lower name) claude) eqn:Hc.
  - assert (claude_client s = None) as ->; [|done].
    destruct (claude_client s) as [client|] eqn:Hclient; [|done].
    assert (truthy (anthropic_api_key s) = true) as Ht by eauto.
    destruct (anthropic_api_key s) as [[|c k]|]; try done.
    by destruct (new_Anthropic sdk (c :: k)).
  - destruct (eqb (lower name) azure_openai) eqn:Ha;
      [|injection E as <-; done].
    assert (azure_openai_client s = None) as ->; [|done].
    destruct (azure_openai_client s) as [client|] eqn:Hclient; [|done].
    destruct Haz as [Hk Hend]; [eauto|].
    destruct (azure_openai_api_key s) as [[|c k]|]; try done.
    destruct (azure_openai_endpoint s) as [[|d e']|]; try done.
    by destruct (new_AzureOpenAI sdk _ _ _).
Qed.

End WithBackends.

End Switch.

Lemma init_returns_ready_witness :
  __init__ ascii_lower sdk both_providers (py "Claude") = Returns dual_service ∧
  provider dual_service = ascii_lower (py "Claude") ∧
  active_client_usable dual_service = true ∧
  client_inits dual_service = 1%nat.
Proof.
  assert (H : __init__ ascii_lower sdk both_providers (py "Claude")
              = Returns dual_service) by by_evaluation.
  split; [exact H|].
  destruct (init_returns_ready ascii_lower sdk both_providers (py "Claude")
              dual_service H) as (H1 & _ & H3 & H4 & _).
  done.
Defined.

Lemma switch_returns_usable_witness :
  active_client_usable dual_service = true ∧
  switch_provider ascii_lower sdk dual_service (py "AZURE_OPENAI")
  = (switched_service, Returns azure_openai) ∧
  active_client_usable switched_service = true.
Proof.
  assert (H1 : active_client_usable dual_service = true) by by_evaluation.
  assert (H2 : switch_provider ascii_lower sdk dual_service (py "AZURE_OPENAI")
               = (switched_service, Returns azure_openai)) by by_evaluation.
  split; [exact H1|]. split; [exact H2|].
  exact (proj1 (switch_returns_usable ascii_lower sdk dual_service
                  switched_service (py "AZURE_OPENAI") azure_openai H1 H2)).
Defined.

Lemma switch_builds_new_client_witness :
  ascii_lower (py "azure_openai") ≠ provider dual_service ∧
  switch_provider ascii_lower sdk dual_service (py "azure_openai")
  = (switched_service, Returns azure_openai) ∧
  client_inits switched_service = S (client_inits dual_service).
Proof.
  assert (H1 : ascii_lower (py "azure_openai") ≠ provider dual_service)
    by by_evaluation.
  assert (H2 : switch_provider ascii_lower sdk dual_service (py "azure_openai")
               = (switched_service, Returns azure_openai)) by by_evaluation.
  split; [exact H1|]. split; [exact H2|].
  exact (proj1 (switch_builds_new_client ascii_lower sdk dual_service
                  switched_service (py "azure_openai") azure_openai H1 H2)).
Defined.

Lemma generation_reaches_backend_witness :
  active_client_usable claude_service = true ∧
  generate_summary echo claude_service [] ≠ Raises AttributeError.
Proof.
  assert (H : active_client_usable claude_service = true) by by_evaluation.
  split; [exact H|].
  exact (proj1 (generation_reaches_backend echo claude_service [] H)).
Defined.

Lemma failed_switch_breaks_generation_witness :
  reachable ascii_lower sdk claude_service ∧
  switch_provider ascii_lower sdk claude_service (py "azure_openai")
  = (stranded_service, Raises (value_error IncompleteAzureConfig)) ∧
  generate_summary echo stranded_service (py "Alice: hi")
  = Raises AttributeError ∧
  switch_provider ascii_lower sdk stranded_service (py "azure_openai")
  = (stranded_service, Returns (ascii_lower (py "azure_openai"))).
Proof.
  assert (H1 : reachable ascii_lower sdk claude_service).
  { exact (reachable_init ascii_lower sdk claude_only (py "claude")
             claude_service claude_service_init). }
  assert (H2 : switch_provider ascii_lower sdk claude_service (py "azure_openai")
               = (stranded_service, Raises (value_error IncompleteAzureConfig)))
    by by_evaluation.
  assert (H3 : IncompleteAzureConfig ≠ UnsupportedProvider) by discriminate.
  split; [exact H1|]. split; [exact H2|].
  destruct (failed_switch_breaks_generation ascii_lower sdk echo claude_service
              stranded_service (py "azure_openai") IncompleteAzureConfig
              H1 H2 H3) as (_ & Hg & _ & Hs).
  split; [apply Hg|exact Hs].
Defined.

End LLMExtra.

(** * Further statements: the properties of the Notion page *)

Module PageExtra.
Import Slack Pipeline PageProperties PyStrFacts MoreSamples.

Lemma contains_cons (needle : pystr) (c : N) (s : pystr) :
  contains needle (c :: s) = startswith needle (c :: s) || contains needle s.
Proof. reflexivity. Qed.

Lemma after_None (needle s : pystr) :
  contains needle s = false → after needle s = None.
Proof.
  induction s as [|c s IH].
  - simpl. by destruct (startswith needle []).
  - rewrite contains_cons. intros [H1 H2]%orb_false_iff.
    simpl. rewrite H1. by apply IH.
Qed.

(** A string holds [needle] where it is written. *)
Lemma contains_app (needle a b : pystr) :
  contains needle (a ++ needle ++ b) = true.
Proof.
  induction a as [|c a IH].
  - assert (startswith needle (needle ++ b) = true) as H
      by (apply SlackFacts.startswith_prefix; by exists b).
    simpl. destruct (needle ++ b); simpl in *; by rewrite H.
  - simpl app. rewrite contains_cons, IH. apply orb_true_r.
Qed.

Lemma contains_inside (needle a s b : pystr) :
  contains needle s = true → contains needle (a ++ s ++ b) = true.
Proof.
  intros H. induction a as [|c a IH].
  - simpl. revert H. induction s as [|d s IHs].
    + simpl. rewrite orb_false_r. intros H.
      apply SlackFacts.startswith_prefix in H as [r Hr].
      destruct needle; [|done]. destruct b; reflexivity.
    + rewrite contains_cons. intros [H|H]%orb_true_iff.
      * apply SlackFacts.startswith_prefix in H as [r Hr].
        rewrite Hr, <- app_assoc. apply (contains_app needle []).
      * simpl app. rewrite contains_cons, IHs by done. apply orb_true_r.
  - simpl app. rewrite contains_cons, IH. apply orb_true_r.
Qed.

(** A piece of a join, hence of a split, lies in the string. *)
Lemma join_piece_inside (sep : pystr) (pieces : list pystr) (piece : pystr) :
  piece ∈ pieces → ∃ a b, join sep pieces = a ++ piece ++ b.
Proof.
  induction pieces as [|x rest IH]; [by intros ?%elem_of_nil|].
  destruct rest as [|y rest].
  - intros ->%list_elem_of_singleton. exists [], []. simpl.
    by rewrite app_nil_r.
  - rewrite join_cons by done. intros [->|Hin]%elem_of_cons.
    + by exists [], (sep ++ join sep (y :: rest)).
    + destruct (IH Hin) as (a & b & ->).
      exists (x ++ sep ++ a), b. by rewrite <- !app_assoc.
Qed.

Lemma split_piece_inside (sep : N) (s piece : pystr) :
  piece ∈ split sep s → ∃ a b, s = a ++ piece ++ b.
Proof.
  intros Hin.
  destruct (join_piece_inside [sep] _ _ Hin) as (a & b & H).
  rewrite join_split in H. eauto.
Qed.

Lemma title_of_lines_default (lines : list pystr) :
  Forall (λ line, contains title_marker line = false) lines →
  title_of_lines lines = default_title.
Proof.
  induction 1 as [|line lines Hline _ IH]; [done|].
  simpl. unfold title_of_line. by rewrite after_None.
Qed.

(** X14.  A summary that holds the label of the title nowhere gets the default
    title. *)
Theorem title_default (summary : pystr) :
  contains title_marker summary = false →
  extract_title summary = default_title.
Proof.
  intros Hno. apply title_of_lines_default, Forall_forall.
  intros line (a & b & Hab)%split_piece_inside.
  destruct (contains title_marker line) eqn:Hline; [|done].
  apply (contains_inside _ a _ b) in Hline. congruence.
Qed.

Lemma after_cons (needle : pystr) (c : N) (s : pystr) :
  after needle (c :: s)
  = if startswith needle (c :: s)
    then Some (drop (length needle) (c :: s)) else after needle s.
Proof. reflexivity. Qed.

(** The label is found where it first stands when nothing before it
    holds a star. *)
Lemma after_label (lead rest : pystr) :
  42 ∉ lead → after title_marker (lead ++ title_marker ++ rest) = Some rest.
Proof.
  induction lead as [|c lead IH]; intros Hlead.
  - reflexivity.
  - apply not_elem_of_cons in Hlead as [Hc Hlead].
    change ((c :: lead) ++ title_marker ++ rest)
      with (c :: (lead ++ title_marker ++ rest)).
    rewrite after_cons.
    assert (startswith title_marker (c :: lead ++ title_marker ++ rest)
            = false) as ->; [|by apply IH].
    unfold title_marker at 1. simpl. by rewrite bool_decide_eq_false_2.
Qed.

Lemma dot_star_no_newline (s : pystr) : 10 ∉ s → dot_star s = s.
Proof.
  induction s as [|c s IH]; intros Hs; [done|].
  apply not_elem_of_cons in Hs as [Hc Hs]. simpl.
  rewrite bool_decide_eq_false_2 by done. by rewrite IH.
Qed.

Lemma lstrip_by_no_newline (p : N → bool) (s : pystr) :
  10 ∉ s → 10 ∉ lstrip_by p s.
Proof.
  induction s as [|c s IH]; intros Hs; [done|]. simpl.
  destruct (p c); [|done].
  apply not_elem_of_cons in Hs as [_ Hs]. by apply IH.
Qed.

Lemma title_of_lines_skip (pre : list pystr) (lines : list pystr) :
  Forall (λ line, contains title_marker line = false) pre →
  title_of_lines (pre ++ lines) = title_of_lines lines.
Proof.
  induction 1 as [|line pre Hline _ IH]; [done|].
  simpl. unfold title_of_line. by rewrite after_None.
Qed.

(** X15.  The title is the text that follows the label on the first line that
    holds it, trimmed. *)
Theorem title_from_label (pre post : list pystr) (lead rest : pystr) :
  Forall (λ line, (10 ∉ line) ∧ contains title_marker line = false) pre →
  Forall (λ line, 10 ∉ line) post →
  10 ∉ lead → 42 ∉ lead → 10 ∉ rest →
  extract_title
    (join [10] (pre ++ (lead ++ title_marker ++ rest) :: post))
  = strip rest.
Proof.
  intros Hpre Hpost Hlead Hstar Hrest. unfold extract_title.
  rewrite split_join.
  - rewrite title_of_lines_skip
      by (eapply Forall_impl; [exact Hpre|]; by intros ? [_ ?]).
    cbn [title_of_lines]. unfold title_of_line.
    rewrite after_label by done.
    rewrite dot_star_no_newline by (by apply lstrip_by_no_newline).
    apply strip_lstrip.
  - by destruct pre.
  - apply Forall_app. split.
    + eapply Forall_impl; [exact Hpre|]. by intros ? [? _].
    + constructor; [|done].
      rewrite !not_elem_of_app. split; [done|]. split; [|done].
      unfold title_marker. intros H.
      repeat (apply elem_of_cons in H as [H|H]; [discriminate|]).
      by apply elem_of_nil in H.
Qed.

(** X16.  The title is trimmed, whether found or by default. *)
Theorem title_trimmed (summary : pystr) :
  strip (extract_title summary) = extract_title summary.
Proof.
  unfold extract_title.
  induction (split 10 summary) as [|line lines IH]; [reflexivity|].
  simpl. unfold title_of_line.
  destruct (after title_marker line); [apply strip_idem|exact IH].
Qed.

Section WithClock.

Variable today : pystr.
Variable thread_date : pystr → outcome Exception pystr.

Lemma omap_nil_iff {A B} (f : A → option B) (l : list A) :
  omap f l = [] ↔ Forall (λ x, f x = None) l.
Proof.
  induction l as [|x l IH]; simpl; [by split; [constructor|]|].
  destruct (f x) eqn:Hx; split.
  - discriminate.
  - intros H. inversion H; congruence.
  - intros H. constructor; [done|by apply IH].
  - intros H. inversion H. by apply IH.
Qed.

(** X17.  The contact text of the participants is left out of the page exactly
    when no participant has an email. *)
Theorem participant_info_omitted
    (summary channel_name thread_url thread_ts keywords : pystr)
    (people : list Participant) (props : Properties) :
  assemble_properties today thread_date summary channel_name thread_url
    thread_ts keywords people = Returns props →
  prop_participant_info props = None
  ↔ Forall (λ person, email person = []) people.
Proof.
  unfold assemble_properties.
  destruct (thread_date thread_ts); [|discriminate]. intros [= <-]. simpl.
  transitivity (participant_emails people = []).
  - by destruct (participant_emails people).
  - unfold participant_emails. rewrite omap_nil_iff.
    apply Forall_proper; [|done]. intros person.
    by destruct (email person).
Qed.

Lemma participant_names_bounded (people : list Participant) :
  Forall (λ tag, 1 ≤ length tag ≤ 100)%nat (participant_names people).
Proof.
  unfold participant_names.
  induction people as [|person people IH]; simpl; [constructor|].
  destruct (name person) as [|c n]; [exact IH|].
  constructor; [|exact IH].
  simpl. rewrite length_take. lia.
Qed.

(** X18.  The tags of the page are at most 100, each from 1 to 100 characters
    long; they are left out exactly when no participant has a name. *)
Theorem participant_tags_bounded
    (summary channel_name thread_url thread_ts keywords : pystr)
    (people : list Participant) (props : Properties) :
  assemble_properties today thread_date summary channel_name thread_url
    thread_ts keywords people = Returns props →
  (prop_participants props = None
   ↔ Forall (λ person, name person = []) people) ∧
  ∀ tags, prop_participants props = Some tags →
    (1 ≤ length tags ≤ 100)%nat ∧
    Forall (λ tag, 1 ≤ length tag ≤ 100)%nat tags ∧
    tags = take 100 (participant_names people).
Proof.
  unfold assemble_properties.
  destruct (thread_date thread_ts); [|discriminate]. intros [= <-]. simpl.
  split.
  - transitivity (participant_names people = []).
    + by destruct (participant_names people).
    + unfold participant_names. rewrite omap_nil_iff.
      apply Forall_proper; [|done]. intros person.
      by destruct (name person).
  - intros tags.
    pose proof (participant_names_bounded people) as Hb.
    destruct (participant_names people) as [|n ns] eqn:Hn; [done|].
    intros [= <-]. split; [|split; [|done]].
    + simpl. rewrite length_take. lia.
    + exact (Forall_take _ 100%nat _ Hb).
Qed.

End WithClock.

Lemma title_default_witness :
  contains title_marker (py "## Notes") = false ∧
  extract_title (py "## Notes") = default_title.
Proof.
  split; [reflexivity|].
  exact (title_default (py "## Notes") eq_refl).
Defined.

Lemma title_from_label_witness :
  extract_title release_summary = py "Release plan".
Proof.
  assert (H : extract_title
                (join [10]
                   ([py "## スレッド要約"]
                    ++ (py "- " ++ title_marker ++ py "  Release plan ")
                    :: [py "- **参加者**: Alice, Bob"; [];
                        py "## 主要ポイント"; py "- ship on Friday"]))
              = strip (py "  Release plan ")).
  { apply title_from_label.
    - repeat constructor; no_such_char.
    - repeat constructor; no_such_char.
    - no_such_char.
    - no_such_char.
    - no_such_char. }
  exact H.
Defined.

Lemma participant_info_omitted_witness :
  ∃ props,
    assemble_properties (py "2023-11-15") date_of release_summary
      (py "general") (py "https://slack.com/archives/C42/p1")
      (py "1700000000.000100") [] people = Returns props ∧
    (prop_participant_info props = None
     ↔ Forall (λ person, email person = []) people) ∧
    prop_participant_info props = Some (py "Alice (alice@example.com)").
Proof.
  eexists. split; [reflexivity|]. split; [|reflexivity].
  apply (participant_info_omitted (py "2023-11-15") date_of release_summary
           (py "general") (py "https://slack.com/archives/C42/p1")
           (py "1700000000.000100") [] people).
  reflexivity.
Defined.

Lemma participant_tags_bounded_witness :
  ∃ props,
    assemble_properties (py "2023-11-15") date_of release_summary
      (py "general") (py "https://slack.com/archives/C42/p1")
      (py "1700000000.000100") [] people = Returns props ∧
    prop_participants props = Some [py "Alice"; py "Bob"] ∧
    (1 ≤ length [py "Alice"; py "Bob"] ≤ 100)%nat.
Proof.
  eexists. split; [reflexivity|]. split; [reflexivity|].
  refine (proj1 (proj2 (participant_tags_bounded (py "2023-11-15") date_of
            release_summary (py "general")
            (py "https://slack.com/archives/C42/p1")
            (py "1700000000.000100") [] people _ eq_refl)
          [py "Alice"; py "Bob"] eq_refl)).
Defined.

End PageExtra.

(** * Further statements: the lookups of the transcript and of the
      participants *)

Module SlackExtra.
Import Slack SlackSpec LookupSpec SlackFacts Samples MoreSamples.

Lemma occurrences_cons (uid x : pystr) (ids : list pystr) :
  occurrences uid (x :: ids)
  = ((if decide (x = uid) then 1 else 0) + occurrences uid ids)%nat.
Proof.
  unfold occurrences. rewrite filter_cons. by destruct (decide (x = uid)).
Qed.

Section WithClient.

Variable slack_users : pystr → option UserInfo.

(** X19.  [process_mentions] looks up every token it finds, once per
    occurrence and in the order of the text, whether or not the id was
    looked up before. *)
Theorem process_mentions_lookups (text0 : pystr) :
  calls (process_mentions slack_users text0) = findall_mentions text0.
Proof. unfold calls. by rewrite process_mentions_run. Qed.

Lemma resolve_mentions_none (mentions : list pystr) (text0 : pystr) :
  Forall (λ uid, resolved_name slack_users uid = None) mentions →
  resolve_mentions slack_users mentions text0 = text0.
Proof.
  induction 1 as [|uid mentions Hu _ IH]; [done|].
  simpl. by rewrite Hu.
Qed.

(** X20.  A text none of whose tokens resolves, and so a text without a token,
    comes out of [process_mentions] as it went in. *)
Theorem process_mentions_unresolved (text0 : pystr) :
  Forall (λ uid, resolved_name slack_users uid = None)
    (findall_mentions text0) →
  result (process_mentions slack_users text0) = text0.
Proof.
  intros H. unfold result. rewrite process_mentions_run. simpl.
  by apply resolve_mentions_none.
Qed.

(** One turn of the extractor, with its lookups. *)
Lemma extract_message_lookups (st : Extraction) (msg : RawMessage)
    (log : list pystr) :
  (∀ uid, is_Some (user_cache st !! uid) → uid ∈ processed_users st) →
  ∃ st',
    extract_message slack_users st msg log
    = (st', log ++ first_appearances (processed_users st) (authors [msg])) ∧
    (∀ uid, is_Some (user_cache st' !! uid) → uid ∈ processed_users st') ∧
    processed_users st'
    = match authors [msg] with
      | [] => processed_users st
      | uid :: _ => {[ uid ]} ∪ processed_users st
      end.
Proof.
  intros Hinv. unfold extract_message, authors, authored. simpl omap.
  destruct (user msg) as [[|c uid]|] eqn:Hu; simpl;
    try (exists st; by rewrite app_nil_r).
  destruct (truthy (bot_id msg)); simpl;
    [exists st; by rewrite app_nil_r|].
  case_bool_decide as Hp.
  { exists st. rewrite app_nil_r. split; [done|]. split; [done|].
    apply set_eq. intros x. rewrite elem_of_union, elem_of_singleton.
    split; [by right|]. by intros [->|?]. }
  unfold bind, cached_user_info.
  destruct (user_cache st !! (c :: uid)) as [i|] eqn:Hl.
  { destruct Hp. apply Hinv. by rewrite Hl. }
  unfold bind, users_info, ret.
  destruct (slack_users (c :: uid)) as [i|]; eexists; simpl;
    (split; [reflexivity|]); (split; [|done]); intros x Hx;
    simpl in Hx |- *; apply elem_of_union.
  - rewrite lookup_insert in Hx. case_decide as Hx'.
    + left. by apply elem_of_singleton.
    + right. by apply Hinv.
  - right. by apply Hinv.
Qed.

Lemma extract_loop_lookups (messages : list RawMessage) (st : Extraction)
    (log : list pystr) :
  (∀ uid, is_Some (user_cache st !! uid) → uid ∈ processed_users st) →
  ∃ st',
    extract_loop slack_users st messages log
    = (st',
       log ++ first_appearances (processed_users st) (authors messages)).
Proof.
  revert st log. induction messages as [|msg messages IH]; intros st log Hinv.
  { exists st. simpl. by rewrite app_nil_r. }
  cbn [extract_loop]. unfold bind at 1.
  destruct (extract_message_lookups st msg log Hinv)
    as (st1 & -> & Hinv1 & Hp1).
  destruct (IH st1 (log ++ first_appearances (processed_users st)
                             (authors [msg])) Hinv1) as (st2 & ->).
  exists st2. f_equal. rewrite <- app_assoc. f_equal.
  rewrite Hp1. unfold authors. simpl omap.
  destruct (if authored msg then user msg else None) as [uid|]; [|done].
  simpl. case_bool_decide as Hp; [|done]. simpl.
  assert ({[ uid ]} ∪ processed_users st = processed_users st) as ->; [|done].
  apply subseteq_union_1_L. by apply singleton_subseteq_l.
Qed.

(** X21.  The extractor calls [users_info] once for each distinct author, in
    the order of the first appearances, and for nobody else. *)
Theorem extractor_lookups (messages : list RawMessage) :
  calls (extract_participants_with_email slack_users messages)
  = first_appearances ∅ (authors messages) ∧
  NoDup (calls (extract_participants_with_email slack_users messages)) ∧
  calls (extract_participants_with_email slack_users messages)
  = user_id
      <$> result (extract_participants_with_email slack_users messages).
Proof.
  assert (H : calls (extract_participants_with_email slack_users messages)
              = first_appearances ∅ (authors messages)).
  { unfold calls, extract_participants_with_email, bind.
    destruct (extract_loop_lookups messages
                {| participants := []; user_cache := ∅;
                   processed_users := ∅ |} [])
      as (st' & ->); [|done].
    intros uid [i Hi]. simpl in Hi. by rewrite lookup_empty in Hi. }
  split; [exact H|]. rewrite H.
  split; [apply first_appearances_NoDup|].
  unfold result, extract_participants_with_email, bind.
  destruct (extract_loop_run slack_users messages
              {| participants := []; user_cache := ∅;
                 processed_users := ∅ |} [])
    as (st' & log' & -> & Hst'); [apply cache_sound_empty|].
  simpl in *. rewrite Hst', <- list_fmap_compose.
  symmetry. apply list_fmap_id.
Qed.

(** One turn of the transcript loop over a message without a token. *)
Lemma format_message_lookups (lines : list pystr)
    (cache : gmap pystr UserInfo) (msg : RawMessage) (log : list pystr) :
  findall_mentions (default [] (text msg)) = [] →
  ∃ lines' cache',
    format_message slack_users (lines, cache) msg log
    = ((lines', cache'),
       log ++ author_lookups slack_users (dom cache) (authors [msg])) ∧
    dom cache'
    = match authors [msg] with
      | [] => dom cache
      | uid :: _ =>
          if bool_decide (uid ∈ dom cache) then dom cache
          else if slack_users uid is Some _ then {[ uid ]} ∪ dom cache
               else dom cache
      end.
Proof.
  intros Hno. unfold format_message, authors, authored. simpl omap.
  destruct (user msg) as [[|c uid]|] eqn:Hu; simpl;
    try (eexists _, _; by rewrite app_nil_r).
  destruct (truthy (bot_id msg)); simpl;
    [eexists _, _; by rewrite app_nil_r|].
  unfold bind at 1. unfold cached_user_info.
  destruct (cache !! (c :: uid)) as [i|] eqn:Hl.
  - rewrite bool_decide_eq_true_2 by (apply elem_of_dom; by rewrite Hl).
    unfold ret, bind. rewrite line_text_run, Hno, !app_nil_r.
    match goal with |- context [strip ?t] => destruct (strip t) end;
      by eexists _, _.
  - rewrite bool_decide_eq_false_2
      by (rewrite elem_of_dom, Hl; by intros [? ?]).
    unfold bind, users_info, ret.
    destruct (slack_users (c :: uid)) as [i|];
      rewrite line_text_run, Hno, !app_nil_r;
      match goal with |- context [strip ?t] => destruct (strip t) end;
      eexists _, _; (split; [reflexivity|]);
      try done; apply dom_insert_L.
Qed.

Lemma format_messages_loop_lookups (messages : list RawMessage)
    (lines : list pystr) (cache : gmap pystr UserInfo) (log : list pystr) :
  no_mentions messages →
  ∃ st',
    format_messages_loop slack_users (lines, cache) messages log
    = (st', log ++ author_lookups slack_users (dom cache) (authors messages)).
Proof.
  intros Hno. revert lines cache log.
  induction Hno as [|msg messages Hmsg _ IH]; intros lines cache log.
  { eexists. simpl. by rewrite app_nil_r. }
  cbn [format_messages_loop]. unfold bind at 1.
  destruct (format_message_lookups lines cache msg log Hmsg)
    as (lines1 & cache1 & -> & Hdom).
  destruct (IH lines1 cache1
              (log ++ author_lookups slack_users (dom cache) (authors [msg])))
    as (st2 & ->).
  exists st2. f_equal. rewrite <- app_assoc. f_equal.
  rewrite Hdom. unfold authors. simpl omap.
  destruct (if authored msg then user msg else None) as [uid|]; [|done].
  simpl. case_bool_decide; [done|].
  by destruct (slack_users uid).
Qed.

Lemma author_lookups_cached (uid : pystr) (ids : list pystr)
    (cached : gset pystr) :
  uid ∈ cached →
  occurrences uid (author_lookups slack_users cached ids) = 0%nat.
Proof.
  revert cached. induction ids as [|x ids IH]; intros cached Hin; [done|].
  simpl. case_bool_decide as Hx; [by apply IH|].
  rewrite occurrences_cons.
  rewrite decide_False by (intros ->; done).
  apply IH. destruct (slack_users x); [|done].
  apply elem_of_union. by right.
Qed.

Lemma author_lookups_resolved (uid : pystr) (ids : list pystr)
    (cached : gset pystr) :
  is_Some (slack_users uid) →
  (occurrences uid (author_lookups slack_users cached ids) ≤ 1)%nat.
Proof.
  intros [i Hi]. revert cached.
  induction ids as [|x ids IH]; intros cached; simpl; [unfold occurrences; simpl; lia|].
  case_bool_decide as Hx; [apply IH|].
  rewrite occurrences_cons. destruct (decide (x = uid)) as [->|Hne].
  - rewrite Hi. rewrite author_lookups_cached; [lia|].
    apply elem_of_union. left. by apply elem_of_singleton.
  - simpl. apply IH.
Qed.

Lemma author_lookups_failed (uid : pystr) (ids : list pystr)
    (cached : gset pystr) :
  slack_users uid = None → uid ∉ cached →
  occurrences uid (author_lookups slack_users cached ids)
  = occurrences uid ids.
Proof.
  intros Hnone. revert cached.
  induction ids as [|x ids IH]; intros cached Hout; [done|].
  simpl. rewrite (occurrences_cons uid x ids).
  case_bool_decide as Hx.
  - rewrite decide_False by (intros ->; done). simpl. by apply IH.
  - rewrite occurrences_cons. f_equal.
    destruct (decide (x = uid)) as [->|Hne].
    + rewrite Hnone. by apply IH.
    + apply IH. destruct (slack_users x); [|done].
      rewrite not_elem_of_union, not_elem_of_singleton. done.
Qed.

(** X22.  The cache of the transcript builder, over messages that mention
    nobody: the lookups are those of the authors; an author whose lookup
    answers is looked up once at most, an author whose lookup fails is
    looked up again for each of their messages. *)
Theorem transcript_author_lookups (messages : list RawMessage) :
  no_mentions messages →
  let looked_up := calls (format_messages_for_llm slack_users messages) in
  looked_up = author_lookups slack_users ∅ (authors messages) ∧
  (∀ uid, is_Some (slack_users uid) → (occurrences uid looked_up ≤ 1)%nat) ∧
  (∀ uid, slack_users uid = None →
     occurrences uid looked_up = occurrences uid (authors messages)).
Proof.
  intros Hno looked_up.
  assert (H : looked_up = author_lookups slack_users ∅ (authors messages)).
  { unfold looked_up, calls, format_messages_for_llm, formatted_messages,
      bind, ret.
    destruct (format_messages_loop_lookups messages [] ∅ [] Hno)
      as (st' & ->). simpl. by rewrite dom_empty_L. }
  split; [exact H|]. rewrite H. split.
  - intros uid Hu. by apply author_lookups_resolved.
  - intros uid Hu. apply author_lookups_failed; [done|].
    apply not_elem_of_empty.
Qed.

End WithClient.

Lemma process_mentions_unresolved_witness :
  Forall (λ uid, resolved_name directory uid = None)
    (findall_mentions (py "hi <@U9>")) ∧
  result (process_mentions directory (py "hi <@U9>")) = py "hi <@U9>".
Proof.
  assert (H : Forall (λ uid, resolved_name directory uid = None)
                (findall_mentions (py "hi <@U9>")))
    by (repeat constructor).
  split; [exact H|].
  exact (process_mentions_unresolved directory (py "hi <@U9>") H).
Defined.

Lemma transcript_author_lookups_witness :
  no_mentions plain_thread ∧
  calls (format_messages_for_llm directory plain_thread)
  = [py "U1"; py "U9"; py "U9"] ∧
  (occurrences (py "U1")
     (calls (format_messages_for_llm directory plain_thread)) ≤ 1)%nat.
Proof.
  assert (H : no_mentions plain_thread) by (repeat constructor).
  split; [exact H|]. split; [reflexivity|].
  refine (proj1 (proj2 (transcript_author_lookups directory plain_thread H))
            (py "U1") _).
  by eexists.
Defined.

End SlackExtra.

(** * Further statements: the mention handler *)

Module PipelineExtra.
Import LLM Slack Notion Pipeline PageProperties Samples MoreSamples.

Section Handler.

Context {Props : Type}.
Variable lower : pystr → pystr.
Variable sdk : Sdk.
Variable config : NotionConfig.
Variable world : World Props.

(** X23.  The page url is there exactly when the save was asked for and
    configured, the keywords were extracted, the properties assembled, and
    the request answered 200 with a body that holds the url. *)
Theorem saved_link_iff (save_to_notion : bool) (llm : LLMService)
    (summary channel_name thread_url thread_ts : pystr)
    (people : list Participant) (u : pystr) :
  notion_url config world save_to_notion llm summary channel_name thread_url
    thread_ts people = Some u
  ↔ save_to_notion = true ∧
    truthy (NOTION_API_KEY config) = true ∧
    truthy (NOTION_DATABASE_ID config) = true ∧
    ∃ keywords props,
      extract_keywords world llm summary = Returns keywords ∧
      build_properties world summary channel_name thread_url thread_ts
        keywords people = Returns props ∧
      requests_post world
        {| database_id := NOTION_DATABASE_ID config;
           properties := props;
           children :=
             [header_block thread_url; paragraph []]
             ++ convert_summary_to_notion_blocks summary |}
      = Response 200 (Some {| url := Some u |}).
Proof.
  unfold notion_url, save_summary_to_notion.
  destruct save_to_notion; simpl; [|split; [done|by intros [? _]]].
  destruct (truthy (NOTION_API_KEY config)); simpl;
    [|split; [done|by intros (_ & ? & _)]].
  destruct (truthy (NOTION_DATABASE_ID config)); simpl;
    [|split; [done|by intros (_ & _ & ? & _)]].
  destruct (extract_keywords world llm summary) as [keywords|e].
  2: { split; [done|]. by intros (_ & _ & _ & ? & ? & ? & _). }
  destruct (build_properties world summary channel_name thread_url thread_ts
              keywords people) as [props|e] eqn:Hb.
  2: { split; [done|]. intros (_ & _ & _ & k & p & [= <-] & Hp & _).
       congruence. }
  destruct (requests_post world _) as [code json|] eqn:Hpost.
  2: { split; [done|]. intros (_ & _ & _ & k & p & [= <-] & Hp & Hr).
       rewrite Hb in Hp. injection Hp as <-. congruence. }
  destruct (code =? 200) eqn:Hcode.
  - apply N.eqb_eq in Hcode. subst code. split.
    + destruct json as [[[u'|]]|]; try done. intros [= ->].
      repeat split; try done. by exists keywords, props.
    + intros (_ & _ & _ & k & p & [= <-] & Hp & Hr).
      rewrite Hb in Hp. injection Hp as <-.
      rewrite Hpost in Hr. by injection Hr as ->.
  - split; [done|]. intros (_ & _ & _ & k & p & [= <-] & Hp & Hr).
    rewrite Hb in Hp. injection Hp as <-.
    rewrite Hpost in Hr. injection Hr as -> _. by rewrite N.eqb_refl in Hcode.
Qed.

Lemma response_text_cases (save_to_notion : bool) (llm : LLMService)
    (channel_id thread_ts : pystr) (e : Exception) :
  response_text config world save_to_notion llm channel_id thread_ts
  = Raises e
  ↔ conversations_replies world = Raises e ∨
    ∃ messages,
      conversations_replies world = Returns messages ∧
      generate_summary world llm
        (result (format_messages_for_llm (slack_users world) messages))
      = Raises e.
Proof.
  unfold response_text.
  destruct (conversations_replies world) as [messages|e'].
  - destruct (generate_summary world llm _) as [summary|e''] eqn:Hg; split.
    + discriminate.
    + intros [?|(m & [= <-] & Hm)]; [done|]. congruence.
    + intros [= ->]. right. by exists messages.
    + intros [?|(m & [= <-] & Hm)]; [done|]. congruence.
  - split.
    + intros [= ->]. by left.
    + intros [[= ->]|(m & ? & _)]; done.
Qed.

(** X24.  Nothing in the Notion step makes the answer fail: the text of the
    answer is not produced exactly when the fetch of the thread or the
    generation of the summary raises, with that exception. *)
Theorem response_text_raises_iff (save_to_notion : bool) (llm : LLMService)
    (channel_id thread_ts : pystr) (e : Exception) :
  response_text config world save_to_notion llm channel_id thread_ts
  = Raises e
  ↔ conversations_replies world = Raises e ∨
    ∃ messages,
      conversations_replies world = Returns messages ∧
      generate_summary world llm
        (result (format_messages_for_llm (slack_users world) messages))
      = Raises e.
Proof. apply response_text_cases. Qed.

(** X25.  When the first message was posted and the fetch or the generation
    raises in a thread, the status message is edited once, to the error
    text of that exception, and what leaves the handler is what that edit
    raises, if it does. *)
Theorem failure_reported (llm llm1 : LLMService) (event : Event)
    (p ts : pystr) (e : Exception) :
  truthy (event_thread_ts event) = true →
  select_provider lower sdk llm (event_text event) = (llm1, Returns p) →
  say world (initial_message (save_requested lower (event_text event)))
    (event_thread_ts event) = Returns ts →
  (conversations_replies world = Raises e ∨
   ∃ messages,
     conversations_replies world = Returns messages ∧
     generate_summary world llm1
       (result (format_messages_for_llm (slack_users world) messages))
     = Raises e) →
  let handled := handle_app_mentions lower sdk config world llm event in
  ∃ first,
    sent handled
    = [Say first (event_thread_ts event);
       ChatUpdate (event_channel event) ts
         (error_message (str world e))] ∧
    escaped handled
    = match chat_update world (error_message (str world e)) with
      | Returns _ => None
      | Raises e' => Some e'
      end.
Proof.
  intros Hthread Hselect Hsay Hfail handled. subst handled.
  unfold handle_app_mentions. rewrite Hselect, Hthread.
  destruct (event_thread_ts event) as [[|c thread_ts]|] eqn:Hts;
    try discriminate. cbn [truthy andb default from_option id].
  rewrite Hsay.
  rewrite (proj2 (response_text_cases _ llm1 _ _ e) Hfail).
  simpl. by eexists.
Qed.


(** X27.  When the first message was posted, the save is asked for and
    configured, the keywords are extracted, the properties assembled and
    the request answers 200 with the url of the page, the status message
    is edited to the summary, the link to the page and the line of the
    provider. *)
Theorem saved_link_delivered (llm llm1 : LLMService) (event : Event)
    (p ts : pystr) (messages : list RawMessage) (summary keywords : pystr)
    (c : N) (u : pystr) :
  truthy (event_thread_ts event) = true →
  select_provider lower sdk llm (event_text event) = (llm1, Returns p) →
  say world (initial_message (save_requested lower (event_text event)))
    (event_thread_ts event) = Returns ts →
  conversations_replies world = Returns messages →
  generate_summary world llm1
    (result (format_messages_for_llm (slack_users world) messages))
  = Returns summary →
  contains (py "notion") (lower (event_text event))
  || contains (py "ノーション") (event_text event) = true →
  truthy (NOTION_API_KEY config) = true →
  truthy (NOTION_DATABASE_ID config) = true →
  extract_keywords world llm1 summary = Returns keywords →
  (∀ channel_name thread_url thread_ts people,
     ∃ props, build_properties world summary channel_name thread_url
                thread_ts keywords people = Returns props) →
  (∀ page, requests_post world page
           = Response 200 (Some {| url := Some (c :: u) |})) →
  ∃ first rest,
    sent (handle_app_mentions lower sdk config world llm event)
    = Say first (event_thread_ts event)
      :: ChatUpdate (event_channel event) ts
           (summary ++ saved_suffix (c :: u) ++ generated_by llm1)
      :: rest.
Proof.
  intros Hthread Hselect Hsay Hreplies Hsummary Hflag Hkey Hdb Hkw Hbuild
    Hpost.
  unfold handle_app_mentions. rewrite Hselect, Hthread.
  destruct (event_thread_ts event) as [[|d thread_ts]|] eqn:Hts;
    try discriminate. cbn [truthy andb default from_option id].
  rewrite Hsay.
  unfold response_text. rewrite Hreplies, Hsummary.
  unfold notion_url, save_summary_to_notion.
  change (save_requested lower (event_text event))
    with (contains (py "notion") (lower (event_text event))
          || contains (py "ノーション") (event_text event)).
  rewrite Hflag, Hkey, Hdb, Hkw. cbn [andb negb orb].
  match goal with |- context [build_properties world ?a ?b ?c' ?d' ?e' ?f'] =>
    destruct (Hbuild b c' d' f') as [props ->] end.
  rewrite Hpost. simpl. destruct (chat_update world _); by eexists _, _.
Qed.

End Handler.

Lemma failure_reported_witness :
  truthy (event_thread_ts notion_event) = true ∧
  conversations_replies fetch_down = Raises (CallError (py "timeout")) ∧
  sent (handle_app_mentions ascii_lower sdk notion_config fetch_down
          claude_service notion_event)
  = [Say (initial_message true) (event_thread_ts notion_event);
     ChatUpdate (py "C42") (py "1700000301.000300")
       (error_message (py "timeout"))].
Proof.
  assert (H1 : truthy (event_thread_ts notion_event) = true)
    by by_evaluation.
  assert (H2 : select_provider ascii_lower sdk claude_service
                 (event_text notion_event) = (claude_service, Returns claude))
    by by_evaluation.
  assert (Hsay : say fetch_down
                   (initial_message
                      (save_requested ascii_lower (event_text notion_event)))
                   (event_thread_ts notion_event)
                 = Returns (py "1700000301.000300")) by reflexivity.
  assert (H3 : conversations_replies fetch_down
               = Raises (CallError (py "timeout"))) by reflexivity.
  split; [exact H1|]. split; [exact H3|].
  destruct (failure_reported ascii_lower sdk notion_config fetch_down
              claude_service claude_service notion_event claude
              (py "1700000301.000300") (CallError (py "timeout"))
              H1 H2 Hsay (or_introl H3))
    as (first & Hsent & _).
  assert (H : hd_error (sent (handle_app_mentions ascii_lower sdk notion_config
                 fetch_down claude_service notion_event))
              = Some (Say (initial_message true)
                        (event_thread_ts notion_event))) by by_evaluation.
  rewrite Hsent in H. simpl in H. injection H as ->. exact Hsent.
Defined.


Lemma saved_link_delivered_witness :
  truthy (event_thread_ts notion_event) = true ∧
  (∀ page, requests_post notion_up page
           = Response 200 (Some {| url := Some (py "https://notion.so/p1") |})) ∧
  ∃ first rest,
    sent (handle_app_mentions ascii_lower sdk notion_config notion_up
            claude_service notion_event)
    = Say first (event_thread_ts notion_event)
      :: ChatUpdate (event_channel notion_event) (py "1700000301.000300")
           (release_summary ++ saved_suffix (104 :: py "ttps://notion.so/p1")
            ++ generated_by claude_service)
      :: rest.
Proof.
  assert (H1 : truthy (event_thread_ts notion_event) = true)
    by by_evaluation.
  assert (H2 : select_provider ascii_lower sdk claude_service
                 (event_text notion_event) = (claude_service, Returns claude))
    by by_evaluation.
  assert (Hsay : say notion_up
                   (initial_message
                      (save_requested ascii_lower (event_text notion_event)))
                   (event_thread_ts notion_event)
                 = Returns (py "1700000301.000300")) by reflexivity.
  assert (H5 : contains (py "notion") (ascii_lower (event_text notion_event))
               || contains (py "ノーション") (event_text notion_event) = true)
    by by_evaluation.
  assert (H6 : truthy (NOTION_API_KEY notion_config) = true)
    by by_evaluation.
  assert (H7 : truthy (NOTION_DATABASE_ID notion_config) = true)
    by by_evaluation.
  assert (H10 : ∀ page, requests_post notion_up page
             = Response 200 (Some {| url := Some (104 :: py "ttps://notion.so/p1") |}))
    by (intros page; by_evaluation).
  split; [exact H1|]. split; [exact H10|].
  refine (saved_link_delivered ascii_lower sdk notion_config notion_up
            claude_service claude_service notion_event claude
            (py "1700000301.000300") thread
            release_summary (py "release, plan") 104 (py "ttps://notion.so/p1")
            H1 H2 Hsay eq_refl eq_refl H5 H6 H7 eq_refl _ H10).
  intros. by eexists.
Defined.

End PipelineExtra.
